(** * image-points-to-rotation: the detection and geometry pipeline of index.js

    The program finds three coloured dots (red, pink, green) in a camera
    frame, checks that they lie on a line in that order and at equal
    spacing, and computes the rotation that points the front of the marked
    object at the pointer.

    Numbers.  A JavaScript number is modelled by a real number: arithmetic is
    exact, [Math.hypot] is the square root of the sum of squares and
    [Math.atan2] the two-argument arctangent.  Integer-valued data (colour
    channels, pixel coordinates, cluster sums and counts) is kept in [Z].
    The values [NaN] and [Infinity], which [parseFloat] can return, are
    modelled explicitly by the type [number] where the program can meet them:
    the tolerance read from the page. *)

From Stdlib Require Import ZArith QArith Reals Lra Lia List String Ascii Bool.
From Stdlib Require Import DecimalString.
Import ListNotations.

Local Open Scope R_scope.

(** ** Comparisons of real numbers as booleans *)

Definition Rltb (a b : R) : bool := if Rlt_dec a b then true else false.
Definition Rgtb (a b : R) : bool := Rltb b a.
Definition Rleb (a b : R) : bool := if Rle_dec a b then true else false.
Definition Reqb (a b : R) : bool := if Req_dec_T a b then true else false.

(** ** Numbers that may be NaN or infinite *)

Inductive number : Type :=
| NaN
| Inf (negative : bool)
| Fin (r : R).

Module Num.

Definition neg (a : number) : number :=
  match a with
  | NaN => NaN
  | Inf s => Inf (negb s)
  | Fin r => Fin (- r)
  end.

Definition add (a b : number) : number :=
  match a, b with
  | NaN, _ | _, NaN => NaN
  | Inf s, Inf t => if Bool.eqb s t then Inf s else NaN
  | Inf s, Fin _ => Inf s
  | Fin _, Inf t => Inf t
  | Fin r, Fin r' => Fin (r + r')
  end.

Definition sub (a b : number) : number := add a (neg b).

Definition mul (a b : number) : number :=
  match a, b with
  | NaN, _ | _, NaN => NaN
  | Inf s, Inf t => Inf (xorb s t)
  | Inf s, Fin r => if Reqb r 0 then NaN else Inf (xorb s (Rltb r 0))
  | Fin r, Inf t => if Reqb r 0 then NaN else Inf (xorb (Rltb r 0) t)
  | Fin r, Fin r' => Fin (r * r')
  end.

(** [a < b]; false as soon as one side is NaN. *)
Definition ltb (a b : number) : bool :=
  match a, b with
  | NaN, _ | _, NaN => false
  | Inf s, Inf t => s && negb t
  | Inf s, Fin _ => s
  | Fin _, Inf t => negb t
  | Fin r, Fin r' => Rltb r r'
  end.

Definition gtb (a b : number) : bool := ltb b a.

(** ToBoolean of a number: NaN and zero are falsy. *)
Definition truthy (a : number) : bool :=
  match a with
  | NaN => false
  | Inf _ => true
  | Fin r => negb (Reqb r 0)
  end.

(** [a || b] on numbers. *)
Definition or (a b : number) : number := if truthy a then a else b.

End Num.

(** The left operand of [??]: only [undefined] and [null] are nullish. *)
Inductive jsval : Type :=
| Undefined
| Null
| Number (n : number).

Definition coalesce (a : jsval) (b : number) : number :=
  match a with
  | Undefined | Null => b
  | Number n => n
  end.

(** ** parseFloat

    A string is a sequence of code units below 256.  [parseFloat] skips
    leading white space, reads the longest prefix that is a
    StrDecimalLiteral (sign, then [Infinity] or digits with an optional
    fraction and an optional exponent) and answers NaN when there is none.
    The value of the literal is taken exactly. *)

Definition isWhiteSpace (c : ascii) : bool :=
  let n := nat_of_ascii c in
  ((9 <=? n) && (n <=? 13))%nat || (n =? 32)%nat || (n =? 160)%nat.

Definition isDigit (c : ascii) : bool :=
  let n := nat_of_ascii c in ((48 <=? n) && (n <=? 57))%nat.

Definition digitValue (c : ascii) : Z := Z.of_nat (nat_of_ascii c) - 48.

Fixpoint trimStart (s : list ascii) : list ascii :=
  match s with
  | c :: rest => if isWhiteSpace c then trimStart rest else s
  | [] => []
  end.

(** Reads a run of decimal digits: the number read so far, how many digits
    were read, and the rest of the input. *)
Fixpoint readDigits (s : list ascii) (value : Z) (digits : Z)
  : Z * Z * list ascii :=
  match s with
  | c :: rest =>
      if isDigit c
      then readDigits rest (10 * value + digitValue c)%Z (digits + 1)%Z
      else (value, digits, s)
  | [] => (value, digits, [])
  end.

Fixpoint startsWith (prefix s : list ascii) : bool :=
  match prefix, s with
  | [], _ => true
  | p :: prefix', c :: rest => Ascii.eqb p c && startsWith prefix' rest
  | _ :: _, [] => false
  end.

(** ExponentPart: [e] or [E], an optional sign and at least one digit;
    0 when the input does not continue with a complete exponent. *)
Definition readExponent (s : list ascii) : Z :=
  match s with
  | c :: rest =>
      if Ascii.eqb c "e" || Ascii.eqb c "E" then
        match rest with
        | sign :: rest' =>
            if Ascii.eqb sign "-" then
              let '(e, n, _) := readDigits rest' 0%Z 0%Z in
              if (0 <? n)%Z then (- e)%Z else 0%Z
            else if Ascii.eqb sign "+" then
              let '(e, n, _) := readDigits rest' 0%Z 0%Z in
              if (0 <? n)%Z then e else 0%Z
            else
              let '(e, _, _) := readDigits rest 0%Z 0%Z in e
        | [] => 0%Z
        end
      else 0%Z
  | [] => 0%Z
  end.

(** The number [mantissa * 10 ^ exponent]. *)
Definition decimalValue (mantissa exponent : Z) : R :=
  if (0 <=? exponent)%Z
  then IZR (mantissa * 10 ^ exponent)
  else IZR mantissa / IZR (10 ^ (- exponent)).

Definition parseUnsigned (s : list ascii) : number :=
  if startsWith (list_ascii_of_string "Infinity") s then Inf false
  else
    let '(int, intDigits, afterInt) := readDigits s 0%Z 0%Z in
    let '(mantissa, allDigits, afterFraction) :=
      match afterInt with
      | c :: rest =>
          if Ascii.eqb c "." then readDigits rest int intDigits
          else (int, intDigits, afterInt)
      | [] => (int, intDigits, [])
      end in
    if (allDigits =? 0)%Z then NaN
    else
      let fractionDigits := (allDigits - intDigits)%Z in
      Fin (decimalValue mantissa (readExponent afterFraction - fractionDigits)).

Definition parseFloat (s : string) : number :=
  match trimStart (list_ascii_of_string s) with
  | c :: rest =>
      if Ascii.eqb c "-" then Num.neg (parseUnsigned rest)
      else if Ascii.eqb c "+" then parseUnsigned rest
      else parseUnsigned (c :: rest)
  | [] => NaN
  end.

(** ** Thresholds *)

Definition CLUSTER_RADIUS : R := 100.
Definition COLLINEARITY_THRESHOLD : R := 50.
Definition intervallTolerance : number := Fin (8 / 10).

(** ** Points and distance *)

Record Point : Type := mkPoint { x : R; y : R }.

(** [Math.hypot]. *)
Definition hypot (a b : R) : R := sqrt (a * a + b * b).

Definition distance (p1 p2 : Point) : R :=
  hypot (x p1 - x p2) (y p1 - y p2).

(** ** Colour tests

    The channels are the bytes of the image, integers from 0 to 255; the
    products by 0.5 are taken in the rationals, where they are exact. *)

Definition Qltb (a b : Q) : bool :=
  match (a ?= b)%Q with Lt => true | _ => false end.

Definition isRed (r g b : Z) : bool :=
  let max := Z.max r (Z.max g b) in
  (110 <=? max)%Z && (r =? max)%Z
  && Qltb (inject_Z g) (inject_Z r * 0.5) && Qltb (inject_Z b) (inject_Z r * 0.5).

Definition isPink (r g b : Z) : bool :=
  let max := Z.max r (Z.max g b) in
  (110 <=? max)%Z && (r =? max)%Z
  && (80 <? b)%Z && Qltb (inject_Z g) (inject_Z r * 0.5).

Definition isGreen (r g b : Z) : bool :=
  let max := Z.max r (Z.max g b) in
  (110 <=? max)%Z && (g =? max)%Z
  && Qltb (inject_Z r) (inject_Z g * 0.5) && Qltb (inject_Z b) (inject_Z g * 0.5).

(** ** Clustering *)

Record Cluster : Type := mkCluster { sumX : Z; sumY : Z; count : Z }.

(** The loop over the clusters returns at the first one that takes the
    point; the push after the loop is reached when none did. *)
Fixpoint addToClusters (clusters : list Cluster) (px py : Z) (threshold : R)
  : list Cluster :=
  match clusters with
  | cluster :: rest =>
      let cx := IZR (sumX cluster) / IZR (count cluster) in
      let cy := IZR (sumY cluster) / IZR (count cluster) in
      if Rltb (distance {| x := IZR px; y := IZR py |} {| x := cx; y := cy |})
              threshold
      then {| sumX := sumX cluster + px;
              sumY := sumY cluster + py;
              count := count cluster + 1 |} :: rest
      else cluster :: addToClusters rest px py threshold
  | [] => [ {| sumX := px; sumY := py; count := 1 |} ]
  end.

Record ImageData : Type :=
  mkImageData { width : Z; height : Z; data : list Z }.

(** The values taken by a loop [for (let i = 0; i < n; i += 2)]. *)
Definition stride2 (n : Z) : list Z :=
  map (fun k => (2 * Z.of_nat k)%Z) (seq 0 (Z.to_nat ((n + 1) / 2))).

(** [data[i]]; [None] stands for [undefined], read past the end. *)
Definition sample (imageData : ImageData) (i : Z) : option Z :=
  if (i <? 0)%Z then None else nth_error (data imageData) (Z.to_nat i).

(** The test of one pixel.  On an undefined channel [Math.max] is NaN and
    each of the three colour tests answers false. *)
Definition testPixel (imageData : ImageData) (testFunc : Z -> Z -> Z -> bool)
    (px py : Z) : bool :=
  let index := ((py * width imageData + px) * 4)%Z in
  match sample imageData index,
        sample imageData (index + 1),
        sample imageData (index + 2) with
  | Some r, Some g, Some b => testFunc r g b
  | _, _, _ => false
  end.

(** The clusters built by the two nested loops of [clusterColor]. *)
Definition scanClusters (imageData : ImageData)
    (testFunc : Z -> Z -> Z -> bool) : list Cluster :=
  fold_left
    (fun clusters py =>
       fold_left
         (fun clusters px =>
            if testPixel imageData testFunc px py
            then addToClusters clusters px py CLUSTER_RADIUS
            else clusters)
         (stride2 (width imageData)) clusters)
    (stride2 (height imageData)) [].

(** The loop that keeps the cluster with the most pixels. *)
Definition largest (clusters : list Cluster) (first : Cluster) : Cluster :=
  fold_left
    (fun best cluster =>
       if (count cluster >? count best)%Z then cluster else best)
    clusters first.

Definition clusterColor (imageData : ImageData)
    (testFunc : Z -> Z -> Z -> bool) : option Point :=
  let clusters := scanClusters imageData testFunc in
  match clusters with
  | [] => None
  | first :: _ =>
      let best := largest clusters first in
      Some {| x := IZR (sumX best) / IZR (count best);
              y := IZR (sumY best) / IZR (count best) |}
  end.

(** ** Geometry checks *)

Definition pointLineDistance (p p1 p2 : Point) : R :=
  let num :=
    Rabs ((y p2 - y p1) * x p - (x p2 - x p1) * y p
          + x p2 * y p1 - y p2 * x p1) in
  let den := distance p1 p2 in
  if Reqb den 0 then 0 else num / den.

Definition isCollinear (p1 mid p2 : Point) (threshold : R) : bool :=
  Rltb (pointLineDistance mid p1 p2) threshold.

Definition checkOrder (red pink green : Point) (tolerance : R) : bool :=
  let dRP := distance red pink in
  let dPG := distance pink green in
  let dRG := distance red green in
  Rltb (Rabs (dRP + dPG - dRG)) tolerance.

(** [inputValue] is [intervallToleranceInput.value], the text of the
    tolerance field of the page. *)
Definition checkEqualIntervals (inputValue : string) (red pink green : Point)
  : bool :=
  let dRP := distance red pink in
  let dPG := distance pink green in
  let dRG := distance red green in
  let tolerance :=
    coalesce (Number (parseFloat inputValue)) intervallTolerance in
  let min := Num.sub (Fin 1) tolerance in
  let max := Num.add (Fin 1) tolerance in
  Num.gtb (Fin dPG) (Num.mul (Fin dRP) min)
  && Num.ltb (Fin dPG) (Num.mul (Fin dRP) max)
  && Num.gtb (Fin dRG) (Num.mul (Num.mul (Fin dRP) min) (Fin 2))
  && Num.ltb (Fin dRG) (Num.mul (Num.mul (Fin dRP) max) (Fin 2)).

(** The value the page gives the tolerance field when it loads:
    [parseFloat(localStorage.getItem(...)) || 0.7]; a missing item is
    [null], which [parseFloat] reads as the text "null". *)
Definition startupTolerance (stored : option string) : number :=
  let text := match stored with Some s => s | None => "null"%string end in
  Num.or (parseFloat text) (Fin (7 / 10)).

(** ** Rotation *)

(** [Math.atan2 b a], the angle of the vector [(a, b)]. *)
Definition atan2 (b a : R) : R :=
  if Rltb 0 a then atan (b / a)
  else if Rltb a 0 then
    if Rleb 0 b then atan (b / a) + PI else atan (b / a) - PI
  else if Rltb 0 b then PI / 2
  else if Rltb b 0 then - (PI / 2)
  else 0.

(** The last four lines of [computeRotation]: from the two angles to the
    rotation in degrees. *)
Definition toRotation (currentAngle targetAngle : R) : R :=
  let rotation := (targetAngle - currentAngle) * (180 / PI) in
  let rotation := if Rgtb rotation 180 then rotation - 360 else rotation in
  let rotation := if Rleb rotation (-180) then rotation + 360 else rotation in
  rotation.

Definition computeRotation (middle red mouse : Point) : R :=
  let currentAngle := atan2 (y red - y middle) (x red - x middle) in
  let targetAngle := atan2 (y mouse - y middle) (x mouse - x middle) in
  toRotation currentAngle targetAngle.

(** ** Steering message *)

Inductive Mode : Type := Simple | Combined.
Inductive Direction : Type := Left | Right.

Record Steering : Type :=
  mkSteering { mode : Mode; direction : Direction; magnitudePercent : Z }.

(** [Math.round]: the nearest integer, the larger one on a tie. *)
Definition Math_round (v : R) : Z := Int_part (v + 1 / 2).

(** The branch of [processFrame] that words the steering message: which of
    the two sentences, the word put in it, and the percentage. *)
Definition steer (rotation : R) : Steering :=
  if Rltb (Rabs rotation) 90 then
    {| mode := Simple;
       direction := if Rgtb rotation 0 then Right else Left;
       magnitudePercent := Math_round (Rabs rotation / 180 * 100) |}
  else
    {| mode := Combined;
       direction := if Rgtb rotation 0 then Right else Left;
       magnitudePercent := Math_round ((Rabs rotation - 90) / 180 * 100) |}.

Local Open Scope string_scope.

Definition showZ (n : Z) : string := NilZero.string_of_int (Z.to_int n).

Definition word (d : Direction) : string :=
  match d with Right => "right" | Left => "left" end.

Definition steeringText (s : Steering) : string :=
  match mode s with
  | Simple =>
      "The boat have to rotate " ++ word (direction s)
      ++ " with factor " ++ showZ (magnitudePercent s) ++ "%"
  | Combined =>
      "The boat have to turn " ++ word (direction s)
      ++ " and then rotate " ++ word (direction s)
      ++ " with factor " ++ showZ (magnitudePercent s) ++ "%"
  end.

(** [v.toFixed(2)] for a value below 10^21. *)
Definition toFixed2 (v : R) : string :=
  let n := Math_round (Rabs v * 100) in
  let cents := (n mod 100)%Z in
  (if Rltb v 0 then "-" else "")
  ++ showZ (n / 100) ++ "."
  ++ (if (cents <? 10)%Z then "0" else "") ++ showZ cents.

Definition degreeSign : string := String (ascii_of_nat 176) EmptyString.

Local Close Scope string_scope.

(** ** Detected dots

    The points found by [detectDots] are objects: [dots.pink] and
    [middleFront] name the same one.  The heap holds the objects, a marker
    set holds their addresses ([None] for [null]). *)

Definition Loc : Type := nat.
Definition Heap : Type := list Point.

Definition load (heap : Heap) (l : Loc) : Point :=
  nth l heap {| x := 0; y := 0 |}.

Fixpoint update (heap : Heap) (l : Loc) (f : Point -> Point) : Heap :=
  match heap, l with
  | p :: rest, O => f p :: rest
  | p :: rest, S l' => p :: update rest l' f
  | [], _ => []
  end.

Definition setX (heap : Heap) (l : Loc) (v : R) : Heap :=
  update heap l (fun p => {| x := v; y := y p |}).

Definition setY (heap : Heap) (l : Loc) (v : R) : Heap :=
  update heap l (fun p => {| x := x p; y := v |}).

(** A new object for a point that was found; [null] is not an object. *)
Definition allocate (heap : Heap) (found : option Point)
  : option Loc * Heap :=
  match found with
  | Some p => (Some (List.length heap), heap ++ [p])
  | None => (None, heap)
  end.

Record Dots : Type :=
  mkDots { red : option Loc; pink : option Loc; green : option Loc }.

Definition detectDots (imageData : ImageData) (heap : Heap) : Dots * Heap :=
  let '(redPoint, heap) := allocate heap (clusterColor imageData isRed) in
  let '(pinkPoint, heap) := allocate heap (clusterColor imageData isPink) in
  let '(greenPoint, heap) := allocate heap (clusterColor imageData isGreen) in
  ({| red := redPoint; pink := pinkPoint; green := greenPoint |}, heap).

(** ** Drawing

    What is drawn on the canvas is kept as the list of the drawing calls,
    with the coordinates the points had when the call was made. *)

Inductive Paint : Type :=
| Colour (name : string)
| Gradient (x0 y0 x1 y1 : R) (from to : string).

Inductive DrawOp : Type :=
| Circle (cx cy radius : R) (fill : string)
| Line (x1 y1 x2 y2 : R) (stroke : Paint) (lineWidth : R).

Definition drawCircle (cx cy radius : R) (color : string) : list DrawOp :=
  [Circle cx cy radius color].

Definition drawLine (p1 p2 : Point) (color : Paint) (lineWidth : R)
  : list DrawOp :=
  [Line (x p1) (y p1) (x p2) (y p2) color lineWidth].

Definition drawDetections (heap : Heap) (dots : Dots) : list DrawOp :=
  (match red dots with
   | Some l => drawCircle (x (load heap l)) (y (load heap l)) 10 "red"
   | None => []
   end)
  ++ (match pink dots with
      | Some l => drawCircle (x (load heap l)) (y (load heap l)) 10 "pink"
      | None => []
      end)
  ++ (match green dots with
      | Some l => drawCircle (x (load heap l)) (y (load heap l)) 10 "green"
      | None => []
      end).

Definition drawRegionizedLine (red pink green : Point) : list DrawOp :=
  let grad1 := Gradient (x red) (y red) (x pink) (y pink) "red" "pink" in
  let grad2 := Gradient (x pink) (y pink) (x green) (y green) "pink" "green" in
  drawLine red pink grad1 4 ++ drawLine pink green grad2 4.

(** ** One frame *)

Inductive Check : Type := Collinearity | Ordering | EqualIntervals.

(** The condition [isCollinear(...) && checkOrder(...) &&
    checkEqualIntervals(...)] of [processFrame], with the checks that were
    evaluated, in order: [&&] stops at the first false one. *)
Definition geometryChecks (inputValue : string) (red pink green : Point)
  : bool * list Check :=
  if isCollinear red pink green COLLINEARITY_THRESHOLD then
    if checkOrder red pink green COLLINEARITY_THRESHOLD then
      (checkEqualIntervals inputValue red pink green,
       [Collinearity; Ordering; EqualIntervals])
    else (false, [Collinearity; Ordering])
  else (false, [Collinearity]).

(** The three lines that compute the pivot:
    [const middleFront = dots.pink;
     middleFront.x += (dots.red.x - dots.pink.x) / 2;
     middleFront.y += (dots.red.y - dots.pink.y) / 2;]
    [middleFront] is the address of the pink point; the result is that
    address and the heap after the two assignments. *)
Definition computePivot (heap : Heap) (redLoc pinkLoc : Loc) : Loc * Heap :=
  let middleFront := pinkLoc in
  let heap :=
    setX heap middleFront
      (x (load heap middleFront)
       + (x (load heap redLoc) - x (load heap pinkLoc)) / 2) in
  let heap :=
    setY heap middleFront
      (y (load heap middleFront)
       + (y (load heap redLoc) - y (load heap pinkLoc)) / 2) in
  (middleFront, heap).

Record Frame : Type :=
  mkFrame {
    coordsText : string;      (* coordsDisplay.textContent *)
    angleText : string;       (* angleDisplay.textContent *)
    canvasOps : list DrawOp;  (* the drawing calls, in order *)
    checksRun : list Check;   (* the geometry checks evaluated, in order *)
    heapAfter : Heap          (* the points after the frame *)
  }.

(** [processFrame] from the call of [drawDetections] on.  The pointer
    position always holds two numbers, so the test that they are not [null]
    succeeds. *)
Definition processDots (dots : Dots) (heap : Heap) (mousePos : Point)
    (inputValue : string) : Frame :=
  let drawn := drawDetections heap dots in
  match red dots, pink dots, green dots with
  | Some redLoc, Some pinkLoc, Some greenLoc =>
      let '(accepted, checks) :=
        geometryChecks inputValue
          (load heap redLoc) (load heap pinkLoc) (load heap greenLoc) in
      if accepted then
        let drawn :=
          drawn
          ++ drawRegionizedLine
               (load heap redLoc) (load heap pinkLoc) (load heap greenLoc)
          ++ drawCircle (x (load heap pinkLoc)) (y (load heap pinkLoc)) 8
               "rgb(180, 30, 100)"
          ++ drawLine (load heap greenLoc) (load heap redLoc)
               (Colour "black") 5 in
        let '(middleFront, heap) := computePivot heap redLoc pinkLoc in
        let drawn :=
          drawn
          ++ drawCircle (x (load heap middleFront)) (y (load heap middleFront))
               10 "blue"
          ++ drawCircle (x mousePos) (y mousePos) 5 "blue"
          ++ drawLine (load heap middleFront) mousePos (Colour "blue") 3 in
        let rotation :=
          computeRotation (load heap middleFront) (load heap redLoc) mousePos in
        {| coordsText := steeringText (steer rotation);
           angleText :=
             String.append "Rotation to point toward mouse: "
               (String.append (toFixed2 rotation) degreeSign);
           canvasOps := drawn;
           checksRun := checks;
           heapAfter := heap |}
      else
        {| coordsText :=
             "Detected points are not collinear or in the correct order.";
           angleText := "";
           canvasOps := drawn;
           checksRun := checks;
           heapAfter := heap |}
  | _, _, _ =>
      {| coordsText := "Not all dots detected.";
         angleText := "";
         canvasOps := drawn;
         checksRun := [];
         heapAfter := heap |}
  end.

(** [imageData] is the frame read back from the canvas; drawing the video
    or the image on it, and asking for the next frame, are left to the
    page. *)
Definition processFrame (imageData : ImageData) (mousePos : Point)
    (inputValue : string) : Frame :=
  let '(dots, heap) := detectDots imageData [] in
  processDots dots heap mousePos inputValue.

(** ** Vocabulary of the statements *)

Definition pt (a b : R) : Point := {| x := a; y := b |}.

(** The centroid of a cluster. *)
Definition centroid (cluster : Cluster) : Point :=
  {| x := IZR (sumX cluster) / IZR (count cluster);
     y := IZR (sumY cluster) / IZR (count cluster) |}.

(** The pixel [(px, py)] lies within [threshold] of the current centroid of
    [cluster]. *)
Definition near (threshold : R) (px py : Z) (cluster : Cluster) : Prop :=
  distance {| x := IZR px; y := IZR py |} (centroid cluster) < threshold.

(** [cluster] after it took the pixel [(px, py)]. *)
Definition accumulate (cluster : Cluster) (px py : Z) : Cluster :=
  {| sumX := sumX cluster + px;
     sumY := sumY cluster + py;
     count := count cluster + 1 |}.

(** The pixels that the scan visits and that pass the test, in the order of
    the scan: row by row, every second row and every second column. *)
Definition matchedPixels (imageData : ImageData)
    (testFunc : Z -> Z -> Z -> bool) : list (Z * Z) :=
  flat_map
    (fun py =>
       map (fun px => (px, py))
         (filter (fun px => testPixel imageData testFunc px py)
            (stride2 (width imageData))))
    (stride2 (height imageData)).

(** The clusters after the pixels of [pixels] were added one by one. *)
Definition clustersOf (pixels : list (Z * Z)) : list Cluster :=
  fold_left
    (fun clusters p => addToClusters clusters (fst p) (snd p) CLUSTER_RADIUS)
    pixels [].

(** What the specification says of [isPink]: red is the largest channel, it
    reaches the floor of 110, green and blue are both below half of red,
    and blue is above 80. *)
Definition pinkAsSpecified (r g b : Z) : Prop :=
  (r = Z.max r (Z.max g b) /\ 110 <= Z.max r (Z.max g b)
   /\ 2 * g < r /\ 2 * b < r /\ 80 < b)%Z.

(** ** Images used in the examples *)

(** An image of one row: the pixels at the columns of [reds] are pure red,
    the others black. *)
Definition rowOfReds (columns : nat) (reds : list Z) : ImageData :=
  {| width := Z.of_nat columns;
     height := 1;
     data :=
       flat_map
         (fun k =>
            if existsb (Z.eqb (Z.of_nat k)) reds
            then [255; 0; 0; 255]%Z
            else [0; 0; 0; 255]%Z)
         (seq 0 columns) |}.

(** A single pixel of colour (200, 0, 90). *)
Definition onePixel : ImageData :=
  {| width := 1; height := 1; data := [200; 0; 90; 255]%Z |}.

(** The marker set (0,0), (50,0), (100,0) as three objects. *)
Definition straightHeap : Heap := [pt 0 0; pt 50 0; pt 100 0].
Definition straightDots : Dots :=
  {| red := Some 0%nat; pink := Some 1%nat; green := Some 2%nat |}.


(** ** Pointer position

    The handlers of [mousemove] and [touchmove] scale the position of the
    pointer from the displayed rectangle of the canvas to its pixels. *)



(** ** Sums over pixels and clusters *)

Definition totalCount (clusters : list Cluster) : Z :=
  fold_right (fun c n => (count c + n)%Z) 0%Z clusters.

Definition totalX (clusters : list Cluster) : Z :=
  fold_right (fun c n => (sumX c + n)%Z) 0%Z clusters.

Definition totalY (clusters : list Cluster) : Z :=
  fold_right (fun c n => (sumY c + n)%Z) 0%Z clusters.

Definition sumOfX (pixels : list (Z * Z)) : Z :=
  fold_right (fun p n => (fst p + n)%Z) 0%Z pixels.

Definition sumOfY (pixels : list (Z * Z)) : Z :=
  fold_right (fun p n => (snd p + n)%Z) 0%Z pixels.

(** The mean position of a list of pixels. *)
Definition meanOf (pixels : list (Z * Z)) : Point :=
  {| x := IZR (sumOfX pixels) / IZR (Z.of_nat (List.length pixels));
     y := IZR (sumOfY pixels) / IZR (Z.of_nat (List.length pixels)) |}.


(** The sums of a cluster stay between the bounds of the coordinates of
    its pixels. *)
Definition boxed (lowX highX lowY highY : Z) (c : Cluster) : Prop :=
  (1 <= count c
   /\ lowX * count c <= sumX c <= highX * count c
   /\ lowY * count c <= sumY c <= highY * count c)%Z.


(** An image of one row of 101 pixels: a red pixel at column 0, a pink one
    at column 50, a green one at column 100, black elsewhere. *)
Definition threeDots : ImageData :=
  {| width := 101;
     height := 1;
     data :=
       flat_map
         (fun k =>
            if (k =? 0)%nat then [255; 0; 0; 255]%Z
            else if (k =? 50)%nat then [255; 0; 200; 255]%Z
            else if (k =? 100)%nat then [0; 255; 0; 255]%Z
            else [0; 0; 0; 255]%Z)
         (seq 0 101) |}.


(** * Properties *)

(** ** Booleans of the comparisons *)

Lemma Rltb_true_iff (a b : R) : Rltb a b = true <-> a < b.
Proof. unfold Rltb. destruct (Rlt_dec a b); split; auto; discriminate. Qed.

Lemma Rltb_false_iff (a b : R) : Rltb a b = false <-> ~ a < b.
Proof. unfold Rltb. destruct (Rlt_dec a b); split; auto; try discriminate; tauto. Qed.

Lemma Rleb_true_iff (a b : R) : Rleb a b = true <-> a <= b.
Proof. unfold Rleb. destruct (Rle_dec a b); split; auto; discriminate. Qed.

Lemma Rleb_false_iff (a b : R) : Rleb a b = false <-> ~ a <= b.
Proof. unfold Rleb. destruct (Rle_dec a b); split; auto; try discriminate; tauto. Qed.

Lemma Reqb_true_iff (a b : R) : Reqb a b = true <-> a = b.
Proof. unfold Reqb. destruct (Req_dec_T a b); split; auto; discriminate. Qed.

Lemma Reqb_false_iff (a b : R) : Reqb a b = false <-> a <> b.
Proof. unfold Reqb. destruct (Req_dec_T a b); split; auto; try discriminate; tauto. Qed.

(** ** Clustering *)

Section AddToClusters.

Variables (px py : Z) (threshold : R).

Lemma within_near (cluster : Cluster) :
  Rltb (distance {| x := IZR px; y := IZR py |}
          {| x := IZR (sumX cluster) / IZR (count cluster);
             y := IZR (sumY cluster) / IZR (count cluster) |}) threshold = true
  <-> near threshold px py cluster.
Proof. unfold near, centroid. apply Rltb_true_iff. Qed.

Lemma addToClusters_cons (cluster : Cluster) (rest : list Cluster) :
  (near threshold px py cluster ->
   addToClusters (cluster :: rest) px py threshold
   = accumulate cluster px py :: rest)
  /\ (~ near threshold px py cluster ->
      addToClusters (cluster :: rest) px py threshold
      = cluster :: addToClusters rest px py threshold).
Proof.
  simpl. split; intros H.
  - apply within_near in H. rewrite H. reflexivity.
  - destruct (Rltb _ threshold) eqn:E; [|reflexivity].
    apply within_near in E. contradiction.
Qed.


(** When no cluster is near, a new one is added after the others. *)
Lemma addToClusters_none_near (clusters : list Cluster) :
  Forall (fun c => ~ near threshold px py c) clusters ->
  addToClusters clusters px py threshold
  = clusters ++ [ {| sumX := px; sumY := py; count := 1 |} ].
Proof.
  induction 1 as [|c clusters Hc _ IH].
  - reflexivity.
  - simpl app. rewrite (proj2 (addToClusters_cons c _) Hc), IH. reflexivity.
Qed.


Lemma addToClusters_counts (clusters : list Cluster) :
  Forall (fun c => (1 <= count c)%Z) clusters ->
  Forall (fun c => (1 <= count c)%Z) (addToClusters clusters px py threshold).
Proof.
  induction 1 as [|c rest Hc Hrest IH]; simpl.
  - constructor; [simpl; lia | constructor].
  - destruct (Rltb _ threshold); constructor; simpl; auto; lia.
Qed.

End AddToClusters.

Lemma clustersOf_snoc (pixels : list (Z * Z)) (p : Z * Z) :
  clustersOf (pixels ++ [p])
  = addToClusters (clustersOf pixels) (fst p) (snd p) CLUSTER_RADIUS.
Proof. unfold clustersOf. rewrite fold_left_app. reflexivity. Qed.


Lemma fold_addToClusters_counts (pixels : list (Z * Z)) (start : list Cluster) :
  Forall (fun c => (1 <= count c)%Z) start ->
  Forall (fun c => (1 <= count c)%Z)
    (fold_left
       (fun clusters p => addToClusters clusters (fst p) (snd p) CLUSTER_RADIUS)
       pixels start).
Proof.
  revert start. induction pixels as [|p pixels IH]; simpl; intros start H.
  - exact H.
  - apply IH, addToClusters_counts, H.
Qed.

(** The two nested loops add the matched pixels in the order of the scan. *)
Lemma row_scan (imageData : ImageData) (testFunc : Z -> Z -> Z -> bool)
    (py : Z) (columns : list Z) (start : list Cluster) :
  fold_left
    (fun clusters px =>
       if testPixel imageData testFunc px py
       then addToClusters clusters px py CLUSTER_RADIUS
       else clusters)
    columns start
  = fold_left
      (fun clusters p => addToClusters clusters (fst p) (snd p) CLUSTER_RADIUS)
      (map (fun px => (px, py))
         (filter (fun px => testPixel imageData testFunc px py) columns))
      start.
Proof.
  revert start. induction columns as [|px columns IH]; intros start; simpl.
  - reflexivity.
  - destruct (testPixel imageData testFunc px py); simpl; apply IH.
Qed.

Lemma scanClusters_matchedPixels (imageData : ImageData)
    (testFunc : Z -> Z -> Z -> bool) :
  scanClusters imageData testFunc
  = clustersOf (matchedPixels imageData testFunc).
Proof.
  unfold scanClusters, clustersOf, matchedPixels.
  generalize (@nil Cluster) as start.
  induction (stride2 (height imageData)) as [|py rows IH]; intros start; simpl.
  - reflexivity.
  - rewrite fold_left_app, <- row_scan. apply IH.
Qed.


(** ** Distances at given points *)

Lemma hypot_eq (d a b : R) : 0 <= d -> a * a + b * b = d * d -> hypot a b = d.
Proof.
  intros Hd H. unfold hypot. rewrite H. apply sqrt_square, Hd.
Qed.

Lemma distance_eq (d : R) (p1 p2 : Point) :
  0 <= d ->
  (x p1 - x p2) * (x p1 - x p2) + (y p1 - y p2) * (y p1 - y p2) = d * d ->
  distance p1 p2 = d.
Proof. intros Hd H. unfold distance. apply hypot_eq; assumption. Qed.

Lemma parseFloat_0_8 : parseFloat "0.8" = Fin (8 / 10).
Proof. vm_compute. f_equal; lra. Qed.

Lemma parseFloat_0_1 : parseFloat "0.1" = Fin (1 / 10).
Proof. vm_compute. f_equal; lra. Qed.

Lemma parseFloat_empty : parseFloat "" = NaN.
Proof. reflexivity. Qed.



(** ** Colour tests *)

Lemma Qltb_half (a c : Z) :
  Qltb (inject_Z a) (inject_Z c * 0.5) = true <-> (2 * a < c)%Z.
Proof.
  unfold Qltb.
  destruct (inject_Z a ?= inject_Z c * 0.5)%Q eqn:E.
  - apply Qeq_alt in E. unfold Qeq in E. simpl in E.
    split; [discriminate | lia].
  - apply Qlt_alt in E. unfold Qlt in E. simpl in E.
    split; [lia | reflexivity].
  - apply Qgt_alt in E. unfold Qlt in E. simpl in E.
    split; [discriminate | lia].
Qed.

Lemma isRed_iff (r g b : Z) :
  isRed r g b = true
  <-> (r = Z.max r (Z.max g b) /\ 110 <= Z.max r (Z.max g b)
       /\ 2 * g < r /\ 2 * b < r)%Z.
Proof.
  unfold isRed.
  rewrite !andb_true_iff, Z.leb_le, Z.eqb_eq, !Qltb_half. tauto.
Qed.

Lemma isPink_iff (r g b : Z) :
  isPink r g b = true
  <-> (r = Z.max r (Z.max g b) /\ 110 <= Z.max r (Z.max g b)
       /\ 80 < b /\ 2 * g < r)%Z.
Proof.
  unfold isPink.
  rewrite !andb_true_iff, Z.leb_le, Z.eqb_eq, Z.ltb_lt, Qltb_half. tauto.
Qed.

(** The colour (200, 0, 150) is pink for the program although its blue
    channel is not below half of the red one, against C5 as it is
    stated. *)
Lemma isPink_blue_above_half :
  isPink 200 0 150 = true /\ ~ pinkAsSpecified 200 0 150.
Proof.
  split; [reflexivity|]. unfold pinkAsSpecified. simpl. lia.
Qed.

(** C5, amended.  [isPink] holds exactly when red is the largest channel,
    that maximum is at least 110, green is below half of red and blue is
    above 80; blue is not compared with half of red.  The colours that the
    specification describes are among them. *)
Theorem isPink_exactly (r g b : Z) :
  (isPink r g b = true
   <-> (r = Z.max r (Z.max g b) /\ 110 <= Z.max r (Z.max g b)
        /\ 2 * g < r /\ 80 < b)%Z)
  /\ (pinkAsSpecified r g b -> isPink r g b = true).
Proof.
  split.
  - rewrite isPink_iff. tauto.
  - unfold pinkAsSpecified. rewrite isPink_iff. tauto.
Qed.

Lemma isPink_exactly_witness :
  pinkAsSpecified 200 0 90 /\ isPink 200 0 90 = true.
Proof.
  assert (H : pinkAsSpecified 200 0 90)
    by (unfold pinkAsSpecified; simpl; lia).
  split; [exact H|].
  exact (proj2 (isPink_exactly 200 0 90) H).
Defined.

(** C10. The colour (200, 0, 90) is red and pink at once: a single pixel
    of that colour is found both as the red and as the pink dot. *)
Theorem red_and_pink_overlap :
  (0 <= 200 < 256 /\ 0 <= 0 < 256 /\ 0 <= 90 < 256)%Z
  /\ isRed 200 0 90 = true
  /\ isPink 200 0 90 = true
  /\ clusterColor onePixel isRed = Some (pt 0 0)
  /\ clusterColor onePixel isPink = Some (pt 0 0)
  /\ fst (detectDots onePixel [])
     = {| red := Some 0%nat; pink := Some 1%nat; green := None |}.
Proof.
  split; [lia|].
  split; [reflexivity|]. split; [reflexivity|].
  split; [|split].
  - vm_compute. f_equal. f_equal; lra.
  - vm_compute. f_equal. f_equal; lra.
  - vm_compute. reflexivity.
Qed.

Lemma stride2_spec (n v : Z) :
  In v (stride2 n) <-> (0 <= v < n /\ Z.even v = true)%Z.
Proof.
  unfold stride2. rewrite in_map_iff. split.
  - intros (k & <- & Hk). apply in_seq in Hk.
    split; [|rewrite Z.even_mul; reflexivity].
    assert (Z.of_nat k < (n + 1) / 2)%Z by lia.
    assert (2 * ((n + 1) / 2) <= n + 1)%Z by (apply Z.mul_div_le; lia).
    lia.
  - intros [Hv Heven]. apply Z.even_spec in Heven. destruct Heven as [h ->].
    exists (Z.to_nat h). split; [lia|].
    apply in_seq. split; [lia|]. simpl.
    assert (h + 1 <= (n + 1) / 2)%Z by (apply Z.div_le_lower_bound; lia).
    lia.
Qed.

Lemma matchedPixels_spec (imageData : ImageData)
    (testFunc : Z -> Z -> Z -> bool) (px py : Z) :
  In (px, py) (matchedPixels imageData testFunc)
  <-> In py (stride2 (height imageData))
      /\ In px (stride2 (width imageData))
      /\ testPixel imageData testFunc px py = true.
Proof.
  unfold matchedPixels. rewrite in_flat_map. split.
  - intros (py' & Hrow & Hin). apply in_map_iff in Hin.
    destruct Hin as (px' & Heq & Hin). inversion Heq; subst.
    apply filter_In in Hin. tauto.
  - intros (Hrow & Hcol & Htest). exists py. split; [assumption|].
    apply in_map_iff. exists px. split; [reflexivity|].
    apply filter_In. tauto.
Qed.

Lemma clusterColor_of_clusters (imageData : ImageData)
    (testFunc : Z -> Z -> Z -> bool) :
  clusterColor imageData testFunc
  = match clustersOf (matchedPixels imageData testFunc) with
    | [] => None
    | first :: rest => Some (centroid (largest (first :: rest) first))
    end.
Proof.
  unfold clusterColor. rewrite scanClusters_matchedPixels.
  destruct (clustersOf _); reflexivity.
Qed.


(** Two red pixels 200 columns apart make two clusters of one pixel each. *)
Lemma twoReds_clusters :
  matchedPixels (rowOfReds 203 [0; 200]%Z) isRed = [(0, 0); (200, 0)]%Z
  /\ clustersOf [(0, 0); (200, 0)]%Z
     = [ {| sumX := 0; sumY := 0; count := 1 |};
         {| sumX := 200; sumY := 0; count := 1 |} ].
Proof.
  split; [vm_compute; reflexivity|].
  change (clustersOf [(0, 0); (200, 0)]%Z)
    with (addToClusters [ {| sumX := 0; sumY := 0; count := 1 |} ]
            200 0 CLUSTER_RADIUS).
  apply addToClusters_none_near.
  constructor; [|constructor].
  unfold near, centroid, CLUSTER_RADIUS. simpl.
  rewrite (distance_eq 200) by (simpl; lra). lra.
Qed.

(** Of two clusters of equal size the first created one is returned. *)
Example clusterColor_tie_first :
  clusterColor (rowOfReds 203 [0; 200]%Z) isRed = Some (pt 0 0).
Proof.
  rewrite clusterColor_of_clusters.
  destruct twoReds_clusters as [-> ->].
  unfold largest, centroid, pt. simpl. f_equal. f_equal; lra.
Qed.


(** ** Geometry checks *)

Lemma isCollinear_iff (p1 mid p2 : Point) (threshold : R) :
  isCollinear p1 mid p2 threshold = true
  <-> pointLineDistance mid p1 p2 < threshold.
Proof. apply Rltb_true_iff. Qed.

Lemma checkOrder_iff (red pink green : Point) (tolerance : R) :
  checkOrder red pink green tolerance = true
  <-> Rabs (distance red pink + distance pink green - distance red green)
      < tolerance.
Proof. apply Rltb_true_iff. Qed.

(** The value of [pointLineDistance] when the two points of the line
    differ. *)
Lemma pointLineDistance_eq (p p1 p2 : Point) (d : R) :
  0 < d -> distance p1 p2 = d ->
  pointLineDistance p p1 p2
  = Rabs ((y p2 - y p1) * x p - (x p2 - x p1) * y p
          + x p2 * y p1 - y p2 * x p1) / d.
Proof.
  intros Hd Hdist. unfold pointLineDistance. rewrite Hdist.
  destruct (Reqb d 0) eqn:E; [|reflexivity].
  apply Reqb_true_iff in E. lra.
Qed.

(** The tolerance is the number read from the field, whatever it is: a
    number is neither [undefined] nor [null]. *)
Lemma tolerance_is_parsed (inputValue : string) :
  coalesce (Number (parseFloat inputValue)) intervallTolerance
  = parseFloat inputValue.
Proof. reflexivity. Qed.

Lemma checkEqualIntervals_iff (inputValue : string) (tol : R)
    (red pink green : Point) :
  parseFloat inputValue = Fin tol ->
  checkEqualIntervals inputValue red pink green = true
  <-> (distance red pink * (1 - tol) < distance pink green
       /\ distance pink green < distance red pink * (1 + tol))
      /\ (2 * distance red pink * (1 - tol) < distance red green
          /\ distance red green < 2 * distance red pink * (1 + tol)).
Proof.
  intros Hparse. unfold checkEqualIntervals. rewrite Hparse. simpl.
  unfold Num.gtb, Num.ltb.
  rewrite !andb_true_iff, !Rltb_true_iff. lra.
Qed.

Lemma checkEqualIntervals_NaN (inputValue : string) (red pink green : Point) :
  parseFloat inputValue = NaN ->
  checkEqualIntervals inputValue red pink green = false.
Proof.
  intros Hparse. unfold checkEqualIntervals. rewrite Hparse. reflexivity.
Qed.


(** The marker set (0,0), (50,0), (100,0). *)
Lemma straight_distances :
  distance (pt 0 0) (pt 50 0) = 50
  /\ distance (pt 50 0) (pt 100 0) = 50
  /\ distance (pt 0 0) (pt 100 0) = 100.
Proof. repeat split; apply distance_eq; simpl; lra. Qed.

Lemma straight_collinear :
  isCollinear (pt 0 0) (pt 50 0) (pt 100 0) COLLINEARITY_THRESHOLD = true.
Proof.
  apply isCollinear_iff.
  rewrite (pointLineDistance_eq _ _ _ 100)
    by (try lra; apply straight_distances).
  unfold COLLINEARITY_THRESHOLD. simpl.
  replace (_ + _ - _) with 0 by lra. rewrite Rabs_R0. lra.
Qed.

Lemma straight_ordered :
  checkOrder (pt 0 0) (pt 50 0) (pt 100 0) COLLINEARITY_THRESHOLD = true.
Proof.
  apply checkOrder_iff.
  destruct straight_distances as (-> & -> & ->).
  replace (50 + 50 - 100) with 0 by lra. rewrite Rabs_R0.
  unfold COLLINEARITY_THRESHOLD. lra.
Qed.

Lemma straight_equal_intervals :
  checkEqualIntervals "0.8" (pt 0 0) (pt 50 0) (pt 100 0) = true.
Proof.
  apply (checkEqualIntervals_iff _ _ _ _ _ parseFloat_0_8).
  destruct straight_distances as (-> & -> & ->). lra.
Qed.

Lemma straight_accepted :
  geometryChecks "0.8" (pt 0 0) (pt 50 0) (pt 100 0)
  = (true, [Collinearity; Ordering; EqualIntervals]).
Proof.
  unfold geometryChecks.
  rewrite straight_collinear, straight_ordered, straight_equal_intervals.
  reflexivity.
Qed.




(** ** Equal intervals *)

(** Marker sets on the x axis with dist(red,pink) = 50 and pink at a given
    distance before green. *)
Lemma axis_distances (a b : R) :
  0 <= a -> 0 <= b ->
  distance (pt 0 0) (pt a 0) = a
  /\ distance (pt a 0) (pt (a + b) 0) = b
  /\ distance (pt 0 0) (pt (a + b) 0) = a + b.
Proof. intros Ha Hb. repeat split; apply distance_eq; simpl; lra. Qed.

Lemma equal_intervals_on_axis (inputValue : string) (tol a b : R) :
  parseFloat inputValue = Fin tol -> 0 <= a -> 0 <= b ->
  checkEqualIntervals inputValue (pt 0 0) (pt a 0) (pt (a + b) 0) = true
  <-> (a * (1 - tol) < b /\ b < a * (1 + tol))
      /\ (2 * a * (1 - tol) < a + b /\ a + b < 2 * a * (1 + tol)).
Proof.
  intros Hparse Ha Hb.
  rewrite (checkEqualIntervals_iff _ _ _ _ _ Hparse).
  destruct (axis_distances a b Ha Hb) as (-> & -> & ->). reflexivity.
Qed.




(** C8.  The tolerance is what [parseFloat] made of the field: the default
    0.8 is never taken.  With an empty field the tolerance is NaN and the
    check rejects every marker set, also (0,0), (50,0), (100,0), which
    passes with 0.8; at start-up the field receives 0.7. *)
Theorem tolerance_default_never_used :
  (forall inputValue : string,
      coalesce (Number (parseFloat inputValue)) intervallTolerance
      = parseFloat inputValue)
  /\ intervallTolerance = Fin (8 / 10)
  /\ parseFloat "" = NaN
  /\ (forall red pink green : Point,
        checkEqualIntervals "" red pink green = false)
  /\ checkEqualIntervals "0.8" (pt 0 0) (pt 50 0) (pt 100 0) = true
  /\ geometryChecks "" (pt 0 0) (pt 50 0) (pt 100 0)
     = (false, [Collinearity; Ordering; EqualIntervals])
  /\ startupTolerance None = Fin (7 / 10).
Proof.
  split; [intros; reflexivity|].
  split; [reflexivity|].
  split; [reflexivity|].
  split; [intros; apply checkEqualIntervals_NaN; reflexivity|].
  split; [apply straight_equal_intervals|].
  split.
  { unfold geometryChecks. rewrite straight_collinear, straight_ordered.
    rewrite checkEqualIntervals_NaN by reflexivity. reflexivity. }
  reflexivity.
Qed.

(** ** Rotation *)

Lemma atan_nonpos (v : R) : v <= 0 -> atan v <= 0.
Proof.
  intros [Hlt | ->].
  - left. rewrite <- atan_0. apply atan_increasing, Hlt.
  - rewrite atan_0. lra.
Qed.

Lemma atan_pos (v : R) : 0 < v -> 0 < atan v.
Proof. intros H. rewrite <- atan_0. apply atan_increasing, H. Qed.

(** [Math.atan2] answers an angle in (-PI, PI]. *)
Lemma atan2_range (b a : R) : - PI < atan2 b a <= PI.
Proof.
  assert (HPI := PI_RGT_0). assert (Hatan := atan_bound (b / a)).
  unfold atan2.
  destruct (Rltb 0 a) eqn:Ea; [lra|].
  destruct (Rltb a 0) eqn:Ea'.
  - apply Rltb_true_iff in Ea'.
    assert (Hinv : / a < 0) by (apply Rinv_lt_0_compat, Ea').
    destruct (Rleb 0 b) eqn:Eb.
    + apply Rleb_true_iff in Eb.
      assert (atan (b / a) <= 0) by (apply atan_nonpos; unfold Rdiv; nra).
      lra.
    + apply Rleb_false_iff in Eb.
      assert (0 < atan (b / a)) by (apply atan_pos; unfold Rdiv; nra).
      lra.
  - destruct (Rltb 0 b); [lra|]. destruct (Rltb b 0); lra.
Qed.

Lemma degrees_per_radian : 0 < 180 / PI /\ PI * (180 / PI) = 180.
Proof.
  assert (HPI := PI_RGT_0). split.
  - apply Rdiv_lt_0_compat; lra.
  - field. lra.
Qed.

Lemma toRotation_bounds (currentAngle targetAngle : R) :
  - PI < currentAngle <= PI -> - PI < targetAngle <= PI ->
  -180 < toRotation currentAngle targetAngle <= 180.
Proof.
  intros Hc Ht. assert (HPI := PI_RGT_0).
  destruct degrees_per_radian as [Hk Hk'].
  unfold toRotation. set (k := 180 / PI) in *.
  assert (Hd : -360 < (targetAngle - currentAngle) * k < 360) by (split; nra).
  set (d := (targetAngle - currentAngle) * k) in *.
  unfold Rgtb. destruct (Rltb 180 d) eqn:E1.
  - apply Rltb_true_iff in E1.
    destruct (Rleb (d - 360) (-180)) eqn:E2.
    + apply Rleb_true_iff in E2. lra.
    + lra.
  - apply Rltb_false_iff in E1.
    destruct (Rleb d (-180)) eqn:E2.
    + apply Rleb_true_iff in E2. lra.
    + apply Rleb_false_iff in E2. lra.
Qed.

(** A difference already in (-180, 180] degrees is returned as it is. *)
Lemma toRotation_in_range (currentAngle targetAngle : R) :
  -180 < (targetAngle - currentAngle) * (180 / PI) <= 180 ->
  toRotation currentAngle targetAngle
  = (targetAngle - currentAngle) * (180 / PI).
Proof.
  intros H. unfold toRotation, Rgtb.
  destruct (Rltb 180 _) eqn:E1; [apply Rltb_true_iff in E1; lra|].
  destruct (Rleb _ (-180)) eqn:E2; [apply Rleb_true_iff in E2; lra|].
  reflexivity.
Qed.

Lemma toRotation_half_turn : toRotation 0 PI = 180 /\ toRotation PI 0 = 180.
Proof.
  destruct degrees_per_radian as [Hk Hk']. split.
  - rewrite toRotation_in_range; rewrite Rminus_0_r; lra.
  - unfold toRotation, Rgtb.
    replace ((0 - PI) * (180 / PI)) with (-180) by lra.
    destruct (Rltb 180 (-180)) eqn:E1; [apply Rltb_true_iff in E1; lra|].
    destruct (Rleb (-180) (-180)) eqn:E2; [lra|].
    apply Rleb_false_iff in E2. lra.
Qed.

(** [Math.atan2] on the axes. *)
Lemma atan2_axes (d : R) :
  0 < d ->
  atan2 0 d = 0 /\ atan2 d 0 = PI / 2
  /\ atan2 0 (- d) = PI /\ atan2 (- d) 0 = - (PI / 2).
Proof.
  intros Hd. unfold atan2.
  assert (H0 : Rltb 0 0 = false) by (apply Rltb_false_iff; lra).
  assert (H1 : Rltb 0 d = true) by (apply Rltb_true_iff; lra).
  assert (H2 : Rltb 0 (- d) = false) by (apply Rltb_false_iff; lra).
  assert (H3 : Rltb (- d) 0 = true) by (apply Rltb_true_iff; lra).
  assert (H4 : Rleb 0 0 = true) by (apply Rleb_true_iff; lra).
  rewrite H0, H1, H2, H3, H4.
  unfold Rdiv. rewrite !Rmult_0_l, atan_0.
  repeat split; lra.
Qed.

(** C6. For two angles in (-PI, PI], as [Math.atan2] gives them, the
    rotation is in (-180, 180]: a difference of exactly 180 degrees stays
    180, one of exactly -180 becomes 180, and one in between is returned
    unchanged. *)
Theorem rotation_normalized :
  (forall currentAngle targetAngle : R,
      - PI < currentAngle <= PI -> - PI < targetAngle <= PI ->
      -180 < toRotation currentAngle targetAngle <= 180)
  /\ (forall b a : R, - PI < atan2 b a <= PI)
  /\ (forall middle red mouse : Point,
        -180 < computeRotation middle red mouse <= 180)
  /\ toRotation 0 PI = 180
  /\ toRotation PI 0 = 180
  /\ (forall currentAngle targetAngle : R,
        -180 < (targetAngle - currentAngle) * (180 / PI) <= 180 ->
        toRotation currentAngle targetAngle
        = (targetAngle - currentAngle) * (180 / PI))
  /\ computeRotation (pt 0 0) (pt 10 0) (pt (-10) 0) = 180.
Proof.
  split; [exact toRotation_bounds|].
  split; [exact atan2_range|].
  split; [intros; apply toRotation_bounds; apply atan2_range|].
  split; [apply toRotation_half_turn|].
  split; [apply toRotation_half_turn|].
  split; [exact toRotation_in_range|].
  unfold computeRotation. simpl.
  replace (0 - 0) with 0 by lra.
  replace (10 - 0) with 10 by lra.
  replace (-10 - 0) with (- (10)) by lra.
  destruct (atan2_axes 10 ltac:(lra)) as (-> & _ & -> & _).
  apply toRotation_half_turn.
Qed.

Lemma rotation_normalized_witness :
  - PI < 0 <= PI /\ - PI < PI <= PI /\ -180 < toRotation 0 PI <= 180.
Proof.
  assert (HPI := PI_RGT_0).
  assert (H0 : - PI < 0 <= PI) by lra.
  assert (H1 : - PI < PI <= PI) by lra.
  split; [exact H0|]. split; [exact H1|].
  exact (proj1 rotation_normalized 0 PI H0 H1).
Defined.

(** ** Steering message *)

(** [Math.round v] is the integer [n] with [n - 1/2 <= v < n + 1/2]. *)
Lemma Math_round_spec (v : R) :
  IZR (Math_round v) - 1 / 2 <= v < IZR (Math_round v) + 1 / 2.
Proof.
  unfold Math_round. destruct (base_Int_part (v + 1 / 2)) as [H1 H2]. lra.
Qed.

Lemma Math_round_eq (v : R) (n : Z) :
  IZR n - 1 / 2 <= v < IZR n + 1 / 2 -> Math_round v = n.
Proof.
  intros H. unfold Math_round. symmetry. apply Int_part_spec. lra.
Qed.

Lemma steer_simple (rotation : R) :
  Rabs rotation < 90 ->
  steer rotation
  = {| mode := Simple;
       direction := if Rgtb rotation 0 then Right else Left;
       magnitudePercent := Math_round (Rabs rotation / 180 * 100) |}.
Proof.
  intros H. unfold steer. apply Rltb_true_iff in H. rewrite H. reflexivity.
Qed.

Lemma steer_combined (rotation : R) :
  ~ Rabs rotation < 90 ->
  steer rotation
  = {| mode := Combined;
       direction := if Rgtb rotation 0 then Right else Left;
       magnitudePercent := Math_round ((Rabs rotation - 90) / 180 * 100) |}.
Proof.
  intros H. unfold steer. apply Rltb_false_iff in H. rewrite H. reflexivity.
Qed.





(** ** The heap of points *)

Lemma load_update (heap : Heap) (l l' : Loc) (f : Point -> Point) :
  load (update heap l f) l'
  = if (l' =? l)%nat && (l <? List.length heap)%nat
    then f (load heap l')
    else load heap l'.
Proof.
  unfold load. revert l l'.
  induction heap as [|p heap IH]; intros l l'.
  - simpl. rewrite andb_false_r. destruct l; reflexivity.
  - destruct l as [|l], l' as [|l']; simpl; try reflexivity.
    rewrite IH. reflexivity.
Qed.

Lemma load_update_same (heap : Heap) (l : Loc) (f : Point -> Point) :
  (l < List.length heap)%nat -> load (update heap l f) l = f (load heap l).
Proof.
  intros H. rewrite load_update, Nat.eqb_refl.
  apply Nat.ltb_lt in H. rewrite H. reflexivity.
Qed.

Lemma load_update_other (heap : Heap) (l l' : Loc) (f : Point -> Point) :
  l' <> l -> load (update heap l f) l' = load heap l'.
Proof.
  intros H. rewrite load_update.
  apply Nat.eqb_neq in H. rewrite H. reflexivity.
Qed.

Lemma length_update (heap : Heap) (l : Loc) (f : Point -> Point) :
  List.length (update heap l f) = List.length heap.
Proof.
  revert l. induction heap as [|p heap IH]; intros [|l]; simpl; auto.
Qed.

(** An assignment to one coordinate leaves the other coordinate of every
    point as it was. *)
Lemma y_load_setX (heap : Heap) (l l' : Loc) (v : R) :
  y (load (setX heap l v) l') = y (load heap l').
Proof.
  unfold setX. rewrite load_update.
  destruct ((l' =? l)%nat && _); reflexivity.
Qed.

(** ** One frame *)

Lemma processDots_present (dots : Dots) (heap : Heap) (mousePos : Point)
    (inputValue : string) (redLoc pinkLoc greenLoc : Loc) :
  red dots = Some redLoc -> pink dots = Some pinkLoc ->
  green dots = Some greenLoc ->
  checksRun (processDots dots heap mousePos inputValue)
  = snd (geometryChecks inputValue
           (load heap redLoc) (load heap pinkLoc) (load heap greenLoc))
  /\ heapAfter (processDots dots heap mousePos inputValue)
     = if fst (geometryChecks inputValue
                 (load heap redLoc) (load heap pinkLoc) (load heap greenLoc))
       then snd (computePivot heap redLoc pinkLoc)
       else heap.
Proof.
  intros Hr Hp Hg. unfold processDots. rewrite Hr, Hp, Hg.
  destruct (geometryChecks _ _ _ _) as [[|] checks]; split; reflexivity.
Qed.

(** The messages of a frame in which the three dots were found. *)
Lemma processDots_messages (dots : Dots) (heap : Heap) (mousePos : Point)
    (inputValue : string) (redLoc pinkLoc greenLoc : Loc) :
  red dots = Some redLoc -> pink dots = Some pinkLoc ->
  green dots = Some greenLoc ->
  coordsText (processDots dots heap mousePos inputValue)
  = if fst (geometryChecks inputValue
              (load heap redLoc) (load heap pinkLoc) (load heap greenLoc))
    then
      steeringText
        (steer
           (computeRotation
              (load (snd (computePivot heap redLoc pinkLoc)) pinkLoc)
              (load (snd (computePivot heap redLoc pinkLoc)) redLoc)
              mousePos))
    else
      "Detected points are not collinear or in the correct order."%string.
Proof.
  intros Hr Hp Hg. unfold processDots. rewrite Hr, Hp, Hg.
  destruct (geometryChecks _ _ _ _) as [[|] checks]; reflexivity.
Qed.

Example steeringText_simple :
  steeringText {| mode := Simple; direction := Right; magnitudePercent := 25 |}
  = "The boat have to rotate right with factor 25%"%string.
Proof. reflexivity. Qed.

Example steeringText_combined :
  steeringText {| mode := Combined; direction := Left; magnitudePercent := 0 |}
  = "The boat have to turn left and then rotate left with factor 0%"%string.
Proof. reflexivity. Qed.

(** After a frame that accepts the marker set (0,0), (50,0), (100,0), the
    pink point of the marker set is (25,0): it was overwritten by the
    pivot, against C3 as it is stated. *)
Lemma pivot_overwrites_pink :
  load straightHeap 1%nat = pt 50 0
  /\ load (heapAfter (processDots straightDots straightHeap (pt 0 0) "0.8")) 1%nat
     = pt 25 0
  /\ load (heapAfter (processDots straightDots straightHeap (pt 0 0) "0.8")) 1%nat
     <> load straightHeap 1%nat.
Proof.
  assert (H : load (heapAfter
                      (processDots straightDots straightHeap (pt 0 0) "0.8")) 1%nat
              = pt 25 0).
  { rewrite (proj2 (processDots_present straightDots straightHeap (pt 0 0)
                      "0.8" 0%nat 1%nat 2%nat eq_refl eq_refl eq_refl)).
    change (load straightHeap 0%nat) with (pt 0 0).
    change (load straightHeap 1%nat) with (pt 50 0).
    change (load straightHeap 2%nat) with (pt 100 0).
    rewrite straight_accepted. cbn [fst].
    unfold computePivot, setX, setY, straightHeap, load, pt. simpl.
    f_equal; lra. }
  split; [reflexivity|]. split; [exact H|].
  rewrite H. unfold straightHeap, load, pt. simpl.
  intros Heq. apply (f_equal x) in Heq. simpl in Heq. lra.
Qed.

(** C3, amended.  The pivot is pink + (red - pink)/2, and it is written
    into the pink point of the marker set: [middleFront] is that very
    object, which holds the pivot afterwards; every other point is
    unchanged. *)
Theorem computePivot_in_place (heap : Heap) (redLoc pinkLoc : Loc) :
  (pinkLoc < List.length heap)%nat ->
  fst (computePivot heap redLoc pinkLoc) = pinkLoc
  /\ load (snd (computePivot heap redLoc pinkLoc)) pinkLoc
     = {| x := x (load heap pinkLoc)
               + (x (load heap redLoc) - x (load heap pinkLoc)) / 2;
          y := y (load heap pinkLoc)
               + (y (load heap redLoc) - y (load heap pinkLoc)) / 2 |}
  /\ (forall l, l <> pinkLoc ->
        load (snd (computePivot heap redLoc pinkLoc)) l = load heap l).
Proof.
  intros Hvalid. unfold computePivot. simpl.
  split; [reflexivity|]. split.
  - unfold setY at 1. rewrite load_update_same
      by (unfold setX; rewrite length_update; exact Hvalid).
    rewrite !y_load_setX.
    unfold setX. rewrite load_update_same by exact Hvalid. reflexivity.
  - intros l Hl. unfold setY, setX. rewrite !load_update_other by exact Hl.
    reflexivity.
Qed.

Lemma computePivot_in_place_witness :
  (1 < List.length straightHeap)%nat
  /\ fst (computePivot straightHeap 0%nat 1%nat) = 1%nat
  /\ load (snd (computePivot straightHeap 0%nat 1%nat)) 1%nat
     = {| x := x (load straightHeap 1%nat)
               + (x (load straightHeap 0%nat) - x (load straightHeap 1%nat)) / 2;
          y := y (load straightHeap 1%nat)
               + (y (load straightHeap 0%nat) - y (load straightHeap 1%nat)) / 2 |}
  /\ (forall l, l <> 1%nat ->
        load (snd (computePivot straightHeap 0%nat 1%nat)) l
        = load straightHeap l).
Proof.
  assert (H : (1 < List.length straightHeap)%nat) by (simpl; lia).
  split; [exact H|].
  exact (computePivot_in_place straightHeap 0%nat 1%nat H).
Defined.

(** C9. When red, pink or green is missing the frame reports that not all
    dots were detected, evaluates none of the geometry checks, and leaves
    the points as they were; only the detections are drawn. *)
Theorem missing_marker_skips_geometry (dots : Dots) (heap : Heap)
    (mousePos : Point) (inputValue : string) :
  red dots = None \/ pink dots = None \/ green dots = None ->
  coordsText (processDots dots heap mousePos inputValue)
  = "Not all dots detected."%string
  /\ angleText (processDots dots heap mousePos inputValue) = ""%string
  /\ checksRun (processDots dots heap mousePos inputValue) = []
  /\ heapAfter (processDots dots heap mousePos inputValue) = heap
  /\ canvasOps (processDots dots heap mousePos inputValue)
     = drawDetections heap dots.
Proof.
  intros H. unfold processDots.
  destruct dots as [[r|] [p|] [g|]]; simpl in *;
    try (repeat split; reflexivity).
  destruct H as [H|[H|H]]; discriminate.
Qed.

Lemma missing_marker_skips_geometry_witness :
  pink {| red := Some 0%nat; pink := None; green := Some 1%nat |} = None
  /\ coordsText
       (processDots {| red := Some 0%nat; pink := None; green := Some 1%nat |}
          [pt 0 0; pt 100 0] (pt 0 0) "0.8")
     = "Not all dots detected."%string
  /\ checksRun
       (processDots {| red := Some 0%nat; pink := None; green := Some 1%nat |}
          [pt 0 0; pt 100 0] (pt 0 0) "0.8")
     = [].
Proof.
  split; [reflexivity|].
  destruct (missing_marker_skips_geometry
              {| red := Some 0%nat; pink := None; green := Some 1%nat |}
              [pt 0 0; pt 100 0] (pt 0 0) "0.8"
              (or_intror (or_introl eq_refl)))
    as (Hc & _ & Hk & _).
  split; [exact Hc | exact Hk].
Defined.

(** * Further properties *)

(** ** Colour tests *)

Lemma isGreen_iff (r g b : Z) :
  isGreen r g b = true
  <-> (g = Z.max r (Z.max g b) /\ 110 <= Z.max r (Z.max g b)
       /\ 2 * r < g /\ 2 * b < g)%Z.
Proof.
  unfold isGreen.
  rewrite !andb_true_iff, Z.leb_le, Z.eqb_eq, !Qltb_half. tauto.
Qed.

(** X1. No colour is green and red, or green and pink, at once. *)
Theorem green_excludes_red_and_pink (r g b : Z) :
  (isGreen r g b = true -> isRed r g b = false /\ isPink r g b = false)
  /\ (isRed r g b = true -> isGreen r g b = false)
  /\ (isPink r g b = true -> isGreen r g b = false).
Proof.
  assert (Hrg : ~ (isGreen r g b = true /\ isRed r g b = true))
    by (rewrite isGreen_iff, isRed_iff; lia).
  assert (Hpg : ~ (isGreen r g b = true /\ isPink r g b = true))
    by (rewrite isGreen_iff, isPink_iff; lia).
  destruct (isGreen r g b), (isRed r g b), (isPink r g b);
    repeat split; intros; try reflexivity; try discriminate;
    exfalso; (apply Hrg; split; reflexivity) || (apply Hpg; split; reflexivity).
Qed.

(** X2. A pixel is red and pink at once exactly when it is red and its
    blue channel is above 80; every red pixel has its blue channel below
    128, so the common colours have blue from 81 to 127 and red from 163
    on. *)
Theorem red_pink_overlap_region (r g b : Z) :
  (0 <= r < 256 /\ 0 <= g < 256 /\ 0 <= b < 256)%Z ->
  (isRed r g b = true /\ isPink r g b = true
   <-> isRed r g b = true /\ (80 < b)%Z)
  /\ (isRed r g b = true -> (b < 128)%Z)
  /\ (isRed r g b = true -> isPink r g b = true -> (163 <= r /\ 81 <= b <= 127)%Z).
Proof.
  intros Hbytes. rewrite isRed_iff, isPink_iff. lia.
Qed.

Lemma red_pink_overlap_region_witness :
  (0 <= 200 < 256 /\ 0 <= 0 < 256 /\ 0 <= 90 < 256)%Z
  /\ (isRed 200 0 90 = true /\ isPink 200 0 90 = true
      <-> isRed 200 0 90 = true /\ (80 < 90)%Z).
Proof.
  assert (H : (0 <= 200 < 256 /\ 0 <= 0 < 256 /\ 0 <= 90 < 256)%Z) by lia.
  split; [exact H|].
  exact (proj1 (red_pink_overlap_region 200 0 90 H)).
Defined.

(** X3. A pixel whose channels are all below 110, and a grey pixel (three
    equal channels) of any brightness, passes none of the three tests. *)
Theorem dark_and_grey_pixels_rejected (r g b : Z) :
  (0 <= r /\ 0 <= g /\ 0 <= b)%Z ->
  ((r < 110 /\ g < 110 /\ b < 110)%Z \/ (r = g /\ g = b)) ->
  isRed r g b = false /\ isPink r g b = false /\ isGreen r g b = false.
Proof.
  intros Hpos H.
  assert (Hr : ~ isRed r g b = true) by (rewrite isRed_iff; lia).
  assert (Hp : ~ isPink r g b = true) by (rewrite isPink_iff; lia).
  assert (Hg : ~ isGreen r g b = true) by (rewrite isGreen_iff; lia).
  repeat split; apply not_true_is_false; assumption.
Qed.

Lemma dark_and_grey_pixels_rejected_witness :
  (0 <= 255 /\ 0 <= 255 /\ 0 <= 255)%Z
  /\ isRed 255 255 255 = false /\ isPink 255 255 255 = false
  /\ isGreen 255 255 255 = false.
Proof.
  assert (H : (0 <= 255 /\ 0 <= 255 /\ 0 <= 255)%Z) by lia.
  split; [exact H|].
  exact (dark_and_grey_pixels_rejected 255 255 255 H
           (or_intror (conj eq_refl eq_refl))).
Defined.

(** ** Clustering *)

Lemma addToClusters_totals (clusters : list Cluster) (px py : Z)
    (threshold : R) :
  totalCount (addToClusters clusters px py threshold)
  = (totalCount clusters + 1)%Z
  /\ totalX (addToClusters clusters px py threshold) = (totalX clusters + px)%Z
  /\ totalY (addToClusters clusters px py threshold) = (totalY clusters + py)%Z
  /\ (List.length clusters
      <= List.length (addToClusters clusters px py threshold)
      <= S (List.length clusters))%nat.
Proof.
  induction clusters as [|c clusters IH]; simpl.
  - repeat split; lia.
  - destruct (Rltb _ threshold); simpl.
    + repeat split; lia.
    + destruct IH as (Hc & Hx & Hy & Hl). rewrite Hc, Hx, Hy.
      repeat split; lia.
Qed.

Lemma fold_addToClusters_totals (pixels : list (Z * Z))
    (start : list Cluster) :
  let clusters :=
    fold_left
      (fun clusters p => addToClusters clusters (fst p) (snd p) CLUSTER_RADIUS)
      pixels start in
  totalCount clusters = (totalCount start + Z.of_nat (List.length pixels))%Z
  /\ totalX clusters = (totalX start + sumOfX pixels)%Z
  /\ totalY clusters = (totalY start + sumOfY pixels)%Z
  /\ (List.length start <= List.length clusters
      <= List.length start + List.length pixels)%nat.
Proof.
  revert start. induction pixels as [|p pixels IH]; intros start.
  - simpl. repeat split; lia.
  - cbn zeta in *. cbn [fold_left].
    destruct (IH (addToClusters start (fst p) (snd p) CLUSTER_RADIUS))
      as (Hc & Hx & Hy & Hl).
    destruct (addToClusters_totals start (fst p) (snd p) CLUSTER_RADIUS)
      as (Hc' & Hx' & Hy' & Hl').
    rewrite Hc, Hx, Hy, Hc', Hx', Hy'.
    change (sumOfX (p :: pixels)) with (fst p + sumOfX pixels)%Z.
    change (sumOfY (p :: pixels)) with (snd p + sumOfY pixels)%Z.
    cbn [List.length].
    repeat split; lia.
Qed.

(** X4. Every matched pixel goes into exactly one cluster and none is lost:
    the counts of the clusters add up to the number of matched pixels, their
    sums to the sums of the coordinates; every cluster holds at least one
    pixel, and there are at most as many clusters as matched pixels. *)
Theorem clusters_partition_pixels (imageData : ImageData)
    (testFunc : Z -> Z -> Z -> bool) :
  totalCount (scanClusters imageData testFunc)
  = Z.of_nat (List.length (matchedPixels imageData testFunc))
  /\ totalX (scanClusters imageData testFunc)
     = sumOfX (matchedPixels imageData testFunc)
  /\ totalY (scanClusters imageData testFunc)
     = sumOfY (matchedPixels imageData testFunc)
  /\ Forall (fun c => (1 <= count c)%Z) (scanClusters imageData testFunc)
  /\ (List.length (scanClusters imageData testFunc)
      <= List.length (matchedPixels imageData testFunc))%nat.
Proof.
  rewrite scanClusters_matchedPixels. unfold clustersOf.
  destruct (fold_addToClusters_totals (matchedPixels imageData testFunc) [])
    as (Hc & Hx & Hy & Hl). cbn zeta in *. simpl in Hc, Hx, Hy, Hl.
  split; [exact Hc|]. split; [exact Hx|]. split; [exact Hy|].
  split; [apply fold_addToClusters_counts; constructor | lia].
Qed.

Lemma addToClusters_boxed (lowX highX lowY highY : Z)
    (clusters : list Cluster) (px py : Z) (threshold : R) :
  (lowX <= px <= highX)%Z -> (lowY <= py <= highY)%Z ->
  Forall (boxed lowX highX lowY highY) clusters ->
  Forall (boxed lowX highX lowY highY)
    (addToClusters clusters px py threshold).
Proof.
  intros Hx Hy. induction 1 as [|c clusters Hc Hrest IH]; simpl.
  - constructor; [|constructor]. unfold boxed. simpl. lia.
  - destruct (Rltb _ threshold); constructor; try assumption.
    unfold boxed in *. simpl. lia.
Qed.

Lemma fold_addToClusters_boxed (lowX highX lowY highY : Z)
    (pixels : list (Z * Z)) (start : list Cluster) :
  Forall (fun p => (lowX <= fst p <= highX /\ lowY <= snd p <= highY)%Z)
    pixels ->
  Forall (boxed lowX highX lowY highY) start ->
  Forall (boxed lowX highX lowY highY)
    (fold_left
       (fun clusters p => addToClusters clusters (fst p) (snd p) CLUSTER_RADIUS)
       pixels start).
Proof.
  intros Hp. revert start.
  induction Hp as [|p pixels [Hx Hy] _ IH]; intros start Hs; simpl.
  - exact Hs.
  - apply IH, addToClusters_boxed; assumption.
Qed.

Lemma largest_In (clusters : list Cluster) (start : Cluster) :
  In (largest clusters start) (start :: clusters).
Proof.
  unfold largest. revert start.
  induction clusters as [|c clusters IH]; intros start; simpl.
  - left. reflexivity.
  - destruct (count c >? count start)%Z.
    + right. apply IH.
    + destruct (IH start) as [H|H]; [left; exact H | right; right; exact H].
Qed.

Lemma clusterColor_member (imageData : ImageData)
    (testFunc : Z -> Z -> Z -> bool) (p : Point) :
  clusterColor imageData testFunc = Some p ->
  exists c, In c (clustersOf (matchedPixels imageData testFunc))
            /\ p = centroid c.
Proof.
  rewrite clusterColor_of_clusters.
  destruct (clustersOf _) as [|first rest]; [discriminate|].
  intros H. inversion H; subst. clear H.
  exists (largest (first :: rest) first). split; [|reflexivity].
  destruct (largest_In (first :: rest) first) as [<-|H];
    [left; reflexivity | exact H].
Qed.

Lemma matchedPixels_in_image (imageData : ImageData)
    (testFunc : Z -> Z -> Z -> bool) :
  Forall
    (fun p =>
       (0 <= fst p <= width imageData - 1
        /\ 0 <= snd p <= height imageData - 1)%Z)
    (matchedPixels imageData testFunc).
Proof.
  apply Forall_forall. intros [px py] Hin.
  apply matchedPixels_spec in Hin. destruct Hin as (Hy & Hx & _).
  apply stride2_spec in Hx, Hy. simpl. lia.
Qed.

(** X5. The point that [clusterColor] returns lies inside the image: its
    coordinates are between 0 and width - 1, and 0 and height - 1. *)
Theorem clusterColor_inside_image (imageData : ImageData)
    (testFunc : Z -> Z -> Z -> bool) (p : Point) :
  clusterColor imageData testFunc = Some p ->
  0 <= x p <= IZR (width imageData - 1)
  /\ 0 <= y p <= IZR (height imageData - 1).
Proof.
  intros H. apply clusterColor_member in H. destruct H as (c & Hin & ->).
  assert (Hbox : Forall (boxed 0 (width imageData - 1) 0 (height imageData - 1))
                   (clustersOf (matchedPixels imageData testFunc))).
  { apply fold_addToClusters_boxed;
      [apply matchedPixels_in_image | constructor]. }
  rewrite Forall_forall in Hbox. destruct (Hbox c Hin) as (Hc & Hx & Hy).
  assert (Hcount : 0 < IZR (count c)) by (apply IZR_lt; lia).
  assert (Hdiv : forall s hi : Z,
             (0 * count c <= s <= hi * count c)%Z ->
             0 <= IZR s / IZR (count c) <= IZR hi).
  { intros s hi [Hlo Hhi]. split.
    - apply Rmult_le_pos; [apply IZR_le; lia | left; apply Rinv_0_lt_compat, Hcount].
    - apply Rmult_le_reg_r with (IZR (count c)); [exact Hcount|].
      unfold Rdiv. rewrite Rmult_assoc, Rinv_l, Rmult_1_r by lra.
      rewrite <- mult_IZR. apply IZR_le, Hhi. }
  unfold centroid. simpl. split; apply Hdiv; assumption.
Qed.

Lemma clusterColor_inside_image_witness :
  clusterColor onePixel isRed = Some (pt 0 0)
  /\ 0 <= x (pt 0 0) <= IZR (width onePixel - 1)
  /\ 0 <= y (pt 0 0) <= IZR (height onePixel - 1).
Proof.
  assert (H : clusterColor onePixel isRed = Some (pt 0 0))
    by (vm_compute; f_equal; f_equal; lra).
  split; [exact H|].
  exact (clusterColor_inside_image onePixel isRed (pt 0 0) H).
Defined.

(** X6. Only the pixels of even row and even column inside the image are
    looked at: an image without width or height, and an image whose
    matching pixels are all on odd rows or odd columns, gives [null]. *)
Theorem clusterColor_scans_even_pixels (imageData : ImageData)
    (testFunc : Z -> Z -> Z -> bool) :
  (forall px py,
      In (px, py) (matchedPixels imageData testFunc) ->
      (0 <= px < width imageData /\ Z.even px = true
       /\ 0 <= py < height imageData /\ Z.even py = true)%Z)
  /\ ((width imageData <= 0 \/ height imageData <= 0)%Z ->
      clusterColor imageData testFunc = None)
  /\ ((forall px py,
         testPixel imageData testFunc px py = true ->
         Z.odd px = true \/ Z.odd py = true) ->
      clusterColor imageData testFunc = None).
Proof.
  assert (Hscan : forall px py,
             In (px, py) (matchedPixels imageData testFunc) ->
             (0 <= px < width imageData /\ Z.even px = true
              /\ 0 <= py < height imageData /\ Z.even py = true)%Z
             /\ testPixel imageData testFunc px py = true).
  { intros px py Hin. apply matchedPixels_spec in Hin.
    destruct Hin as (Hy & Hx & Ht). apply stride2_spec in Hx, Hy. tauto. }
  assert (Hnone : (forall px py,
                      ~ In (px, py) (matchedPixels imageData testFunc)) ->
                  clusterColor imageData testFunc = None).
  { intros Hno. rewrite clusterColor_of_clusters.
    destruct (matchedPixels imageData testFunc) as [|[px py] rest] eqn:E;
      [reflexivity|].
    exfalso. apply (Hno px py). left. reflexivity. }
  split; [intros px py Hin; apply Hscan, Hin|].
  split.
  - intros Hempty. apply Hnone. intros px py Hin.
    apply Hscan in Hin. lia.
  - intros Hodd. apply Hnone. intros px py Hin.
    apply Hscan in Hin. destruct Hin as ((_ & Hx & _ & Hy) & Ht).
    rewrite <- Z.negb_odd in Hx, Hy.
    destruct (Hodd px py Ht) as [H|H]; rewrite H in *; discriminate.
Qed.

(** ** Distance *)

Lemma hypot_nonneg (a b : R) : 0 <= hypot a b.
Proof. apply sqrt_pos. Qed.

Lemma hypot_sqr (a b : R) : hypot a b * hypot a b = a * a + b * b.
Proof. unfold hypot. apply sqrt_sqrt. nra. Qed.

Lemma hypot_le (a b d : R) : 0 <= d -> a * a + b * b <= d * d -> hypot a b <= d.
Proof.
  intros Hd H. apply Rsqr_incr_0_var; [|exact Hd].
  unfold Rsqr. rewrite hypot_sqr. exact H.
Qed.

Lemma hypot_triangle (a b c d : R) :
  hypot (a + c) (b + d) <= hypot a b + hypot c d.
Proof.
  assert (H1 := hypot_nonneg a b). assert (H2 := hypot_nonneg c d).
  assert (S1 := hypot_sqr a b). assert (S2 := hypot_sqr c d).
  apply hypot_le; [lra|].
  assert (Hcs : a * c + b * d <= hypot a b * hypot c d).
  { apply Rsqr_incr_0_var; [|apply Rmult_le_pos; assumption].
    unfold Rsqr.
    replace ((hypot a b * hypot c d) * (hypot a b * hypot c d))
      with ((a * a + b * b) * (c * c + d * d))
      by (rewrite <- S1, <- S2; ring).
    assert (Hsq := Rle_0_sqr (a * d - b * c)). unfold Rsqr in Hsq. lra. }
  lra.
Qed.

Lemma hypot_scale (k a b : R) : 0 <= k -> hypot (k * a) (k * b) = k * hypot a b.
Proof.
  intros Hk. apply hypot_eq.
  - apply Rmult_le_pos; [exact Hk | apply hypot_nonneg].
  - assert (S := hypot_sqr a b). nra.
Qed.


Lemma hypot_zero (a b : R) : hypot a b = 0 <-> a = 0 /\ b = 0.
Proof.
  assert (S := hypot_sqr a b). split.
  - intros H. rewrite H in S. split; nra.
  - intros [-> ->]. apply hypot_eq; lra.
Qed.



(** ** Distance to a line *)



(** ** A compact blob is one cluster *)

Lemma sumOfX_app (ps qs : list (Z * Z)) :
  sumOfX (ps ++ qs) = (sumOfX ps + sumOfX qs)%Z.
Proof. induction ps as [|p ps IH]; simpl; [reflexivity | rewrite IH; lia]. Qed.

Lemma sumOfY_app (ps qs : list (Z * Z)) :
  sumOfY (ps ++ qs) = (sumOfY ps + sumOfY qs)%Z.
Proof. induction ps as [|p ps IH]; simpl; [reflexivity | rewrite IH; lia]. Qed.

(** The distance to a sum of points is at most the sum of the distances. *)
Lemma hypot_sum_le (a b bound : R) (qs : list (Z * Z)) :
  Forall (fun q => hypot (a - IZR (fst q)) (b - IZR (snd q)) <= bound) qs ->
  hypot (IZR (Z.of_nat (List.length qs)) * a - IZR (sumOfX qs))
        (IZR (Z.of_nat (List.length qs)) * b - IZR (sumOfY qs))
  <= IZR (Z.of_nat (List.length qs)) * bound.
Proof.
  induction 1 as [|q qs Hq _ IH].
  - simpl. rewrite (hypot_eq 0); lra.
  - change (sumOfX (q :: qs)) with (fst q + sumOfX qs)%Z.
    change (sumOfY (q :: qs)) with (snd q + sumOfY qs)%Z.
    change (List.length (q :: qs)) with (S (List.length qs)).
    rewrite Nat2Z.inj_succ, succ_IZR, !plus_IZR.
    set (n := IZR (Z.of_nat (List.length qs))) in *.
    replace ((n + 1) * a - (IZR (fst q) + IZR (sumOfX qs)))
      with ((a - IZR (fst q)) + (n * a - IZR (sumOfX qs))) by ring.
    replace ((n + 1) * b - (IZR (snd q) + IZR (sumOfY qs)))
      with ((b - IZR (snd q)) + (n * b - IZR (sumOfY qs))) by ring.
    eapply Rle_trans; [apply hypot_triangle|]. lra.
Qed.

(** A point closer than [bound] to every pixel of a list is closer than
    [bound] to their mean. *)
Lemma mean_within (a b bound : R) (qs : list (Z * Z)) :
  qs <> [] ->
  Forall (fun q => hypot (a - IZR (fst q)) (b - IZR (snd q)) < bound) qs ->
  hypot (a - x (meanOf qs)) (b - y (meanOf qs)) < bound.
Proof.
  intros Hne Hall. destruct qs as [|q qs]; [contradiction|].
  inversion Hall as [|q' qs' Hq Hqs]; subst.
  assert (Htail := hypot_sum_le a b bound qs
                     (Forall_impl _ (fun q H => Rlt_le _ _ H) Hqs)).
  assert (Hhead := hypot_triangle (a - IZR (fst q)) (b - IZR (snd q))
                     (IZR (Z.of_nat (List.length qs)) * a - IZR (sumOfX qs))
                     (IZR (Z.of_nat (List.length qs)) * b - IZR (sumOfY qs))).
  unfold meanOf.
  change (sumOfX (q :: qs)) with (fst q + sumOfX qs)%Z.
  change (sumOfY (q :: qs)) with (snd q + sumOfY qs)%Z.
  change (List.length (q :: qs)) with (S (List.length qs)).
  rewrite Nat2Z.inj_succ, succ_IZR, !plus_IZR. cbn [x y].
  assert (Hn : 0 <= IZR (Z.of_nat (List.length qs))) by (apply IZR_le; lia).
  set (n := IZR (Z.of_nat (List.length qs))) in *.
  set (sx := IZR (sumOfX qs)) in *. set (sy := IZR (sumOfY qs)) in *.
  replace (a - (IZR (fst q) + sx) / (n + 1))
    with (/ (n + 1) * ((a - IZR (fst q)) + (n * a - sx))) by (field; lra).
  replace (b - (IZR (snd q) + sy) / (n + 1))
    with (/ (n + 1) * ((b - IZR (snd q)) + (n * b - sy))) by (field; lra).
  assert (Hinv : 0 < / (n + 1)) by (apply Rinv_0_lt_compat; lra).
  rewrite hypot_scale by lra.
  apply Rmult_lt_reg_l with (n + 1); [lra|].
  rewrite <- Rmult_assoc, Rinv_r, Rmult_1_l by lra. lra.
Qed.

Lemma clustersOf_compact (pixels : list (Z * Z)) :
  pixels <> [] ->
  (forall p q, In p pixels -> In q pixels ->
     distance (pt (IZR (fst p)) (IZR (snd p))) (pt (IZR (fst q)) (IZR (snd q)))
     < CLUSTER_RADIUS) ->
  clustersOf pixels
  = [ {| sumX := sumOfX pixels; sumY := sumOfY pixels;
         count := Z.of_nat (List.length pixels) |} ].
Proof.
  induction pixels as [|p pixels IH] using rev_ind; [contradiction|].
  intros _ Hclose. rewrite clustersOf_snoc.
  destruct pixels as [|q0 pixels'].
  - simpl. f_equal. f_equal; lia.
  - set (pixels := q0 :: pixels') in *.
    rewrite IH; [|discriminate|].
    + rewrite (proj1 (addToClusters_cons _ _ _ _ [])).
      * unfold accumulate. cbn [sumX sumY count].
        rewrite sumOfX_app, sumOfY_app, length_app. simpl.
        f_equal. f_equal; lia.
      * unfold near, distance, centroid. cbn [x y sumX sumY count].
        apply (mean_within (IZR (fst p)) (IZR (snd p)) CLUSTER_RADIUS pixels);
          [discriminate|].
        apply Forall_forall. intros q Hq.
        apply (Hclose p q); apply in_or_app; [right; left; reflexivity | left; exact Hq].
    + intros a b Ha Hb. apply Hclose; apply in_or_app; left; assumption.
Qed.

(** X10. When the matched pixels are pairwise closer than the radius of
    100 pixels, they form a single cluster and [clusterColor] returns their
    mean position. *)
Theorem compact_blob_centroid (imageData : ImageData)
    (testFunc : Z -> Z -> Z -> bool) :
  matchedPixels imageData testFunc <> [] ->
  (forall p q,
      In p (matchedPixels imageData testFunc) ->
      In q (matchedPixels imageData testFunc) ->
      distance (pt (IZR (fst p)) (IZR (snd p))) (pt (IZR (fst q)) (IZR (snd q)))
      < 100) ->
  List.length (scanClusters imageData testFunc) = 1%nat
  /\ clusterColor imageData testFunc
     = Some (meanOf (matchedPixels imageData testFunc)).
Proof.
  intros Hne Hclose.
  rewrite clusterColor_of_clusters, scanClusters_matchedPixels.
  rewrite (clustersOf_compact _ Hne Hclose).
  split; [reflexivity|].
  unfold largest. simpl. destruct (_ >? _)%Z; reflexivity.
Qed.

Lemma compact_blob_centroid_witness :
  matchedPixels (rowOfReds 3 [0; 2]%Z) isRed <> []
  /\ List.length (scanClusters (rowOfReds 3 [0; 2]%Z) isRed) = 1%nat
  /\ clusterColor (rowOfReds 3 [0; 2]%Z) isRed
     = Some (meanOf (matchedPixels (rowOfReds 3 [0; 2]%Z) isRed)).
Proof.
  assert (Hm : matchedPixels (rowOfReds 3 [0; 2]%Z) isRed
               = [(0, 0); (2, 0)]%Z) by (vm_compute; reflexivity).
  assert (Hne : matchedPixels (rowOfReds 3 [0; 2]%Z) isRed <> [])
    by (rewrite Hm; discriminate).
  split; [exact Hne|].
  apply (compact_blob_centroid (rowOfReds 3 [0; 2]%Z) isRed Hne).
  rewrite Hm. intros p q Hp Hq.
  assert (Hd : forall a b : Z,
             (a = 0 \/ a = 2)%Z -> (b = 0 \/ b = 2)%Z ->
             distance (pt (IZR a) 0) (pt (IZR b) 0) < 100).
  { intros a b Ha Hb.
    assert (Hle : distance (pt (IZR a) 0) (pt (IZR b) 0) <= 2).
    { unfold distance. apply hypot_le; [lra|]. simpl.
      destruct Ha as [-> | ->], Hb as [-> | ->]; lra. }
    lra. }
  destruct Hp as [<-|[<-|[]]], Hq as [<-|[<-|[]]]; simpl; apply Hd; auto.
Defined.

(** ** Equal spacing *)

Lemma distance_nonneg (p q : Point) : 0 <= distance p q.
Proof. apply hypot_nonneg. Qed.




(** X12. The equal-spacing check rejects every marker set when the
    tolerance is zero or negative, and rejects a marker set whose red and
    pink points coincide whatever the tolerance. *)
Theorem checkEqualIntervals_rejects (inputValue : string) (tol : R)
    (red pink green : Point) :
  parseFloat inputValue = Fin tol ->
  tol <= 0 \/ red = pink ->
  checkEqualIntervals inputValue red pink green = false.
Proof.
  intros Hparse H. apply not_true_is_false. intros Hacc.
  apply (checkEqualIntervals_iff _ _ _ _ _ Hparse) in Hacc.
  assert (Hd := distance_nonneg red pink).
  destruct H as [Htol | ->].
  - nra.
  - assert (H0 : distance pink pink = 0) by (apply distance_eq; lra).
    rewrite H0 in Hacc. lra.
Qed.

Lemma parseFloat_0 : parseFloat "0" = Fin 0.
Proof. vm_compute. f_equal; lra. Qed.

Lemma checkEqualIntervals_rejects_witness :
  parseFloat "0" = Fin 0 /\ (0 <= 0 \/ pt 0 0 = pt 50 0)
  /\ checkEqualIntervals "0" (pt 0 0) (pt 50 0) (pt 100 0) = false.
Proof.
  assert (H : 0 <= 0 \/ pt 0 0 = pt 50 0) by (left; lra).
  split; [exact parseFloat_0|]. split; [exact H|].
  exact (checkEqualIntervals_rejects "0" 0 (pt 0 0) (pt 50 0) (pt 100 0)
           parseFloat_0 H).
Defined.

(** X13. A marker set that passes the equal-spacing check with one
    tolerance passes it with every larger one. *)
Theorem checkEqualIntervals_monotone (v v' : string) (tol tol' : R)
    (red pink green : Point) :
  parseFloat v = Fin tol -> parseFloat v' = Fin tol' -> tol <= tol' ->
  checkEqualIntervals v red pink green = true ->
  checkEqualIntervals v' red pink green = true.
Proof.
  intros Hv Hv' Hle Hacc.
  apply (checkEqualIntervals_iff _ _ _ _ _ Hv) in Hacc.
  apply (checkEqualIntervals_iff _ _ _ _ _ Hv').
  assert (Hd := distance_nonneg red pink).
  assert (Hprod : distance red pink * tol <= distance red pink * tol')
    by (apply Rmult_le_compat_l; assumption).
  lra.
Qed.

Lemma checkEqualIntervals_monotone_witness :
  parseFloat "0.1" = Fin (1 / 10) /\ parseFloat "0.8" = Fin (8 / 10)
  /\ 1 / 10 <= 8 / 10
  /\ checkEqualIntervals "0.1" (pt 0 0) (pt 50 0) (pt 104 0) = true
  /\ checkEqualIntervals "0.8" (pt 0 0) (pt 50 0) (pt 104 0) = true.
Proof.
  assert (Hle : 1 / 10 <= 8 / 10) by lra.
  assert (Hacc : checkEqualIntervals "0.1" (pt 0 0) (pt 50 0) (pt 104 0) = true).
  { replace 104 with (50 + 54) by lra.
    apply (equal_intervals_on_axis _ _ _ _ parseFloat_0_1); lra. }
  split; [exact parseFloat_0_1|]. split; [exact parseFloat_0_8|].
  split; [exact Hle|]. split; [exact Hacc|].
  exact (checkEqualIntervals_monotone "0.1" "0.8" _ _ _ _ _
           parseFloat_0_1 parseFloat_0_8 Hle Hacc).
Defined.

(** X14. When the tolerance field reads as [Infinity], the equal-spacing
    check accepts every marker set whose red and pink points differ, and
    still rejects one where they coincide. *)
Theorem checkEqualIntervals_infinite_tolerance (inputValue : string)
    (red pink green : Point) :
  parseFloat inputValue = Inf false ->
  (red <> pink -> checkEqualIntervals inputValue red pink green = true)
  /\ (red = pink -> checkEqualIntervals inputValue red pink green = false).
Proof.
  intros Hparse. unfold checkEqualIntervals.
  rewrite Hparse. cbn [coalesce].
  assert (Hd := distance_nonneg red pink).
  split.
  - intros Hdiff.
    assert (Hpos : 0 < distance red pink).
    { destruct Hd as [H|H]; [exact H|]. exfalso. apply Hdiff.
      symmetry in H. unfold distance in H. apply hypot_zero in H.
      destruct red, pink. simpl in H. f_equal; lra. }
    unfold Num.sub, Num.add, Num.neg, Num.mul, Num.gtb, Num.ltb. simpl.
    rewrite (proj2 (Reqb_false_iff (distance red pink) 0)) by lra.
    rewrite (proj2 (Rltb_false_iff (distance red pink) 0)) by lra.
    rewrite (proj2 (Reqb_false_iff 2 0)) by lra.
    rewrite (proj2 (Rltb_false_iff 2 0)) by lra.
    reflexivity.
  - intros ->.
    assert (H0 : distance pink pink = 0) by (apply distance_eq; lra).
    rewrite H0.
    unfold Num.sub, Num.add, Num.neg, Num.mul, Num.gtb, Num.ltb. simpl.
    rewrite (proj2 (Reqb_true_iff 0 0)) by reflexivity.
    reflexivity.
Qed.

Lemma checkEqualIntervals_infinite_tolerance_witness :
  parseFloat "Infinity" = Inf false
  /\ (pt 0 0 <> pt 1 0 ->
      checkEqualIntervals "Infinity" (pt 0 0) (pt 1 0) (pt 500 300) = true).
Proof.
  split; [reflexivity|].
  exact (proj1 (checkEqualIntervals_infinite_tolerance "Infinity"
                  (pt 0 0) (pt 1 0) (pt 500 300) eq_refl)).
Defined.

(** ** Rotation *)






(** ** Steering message *)

Lemma Math_round_bounds (v : R) (low high : Z) :
  IZR low <= v <= IZR high -> (low <= Math_round v <= high)%Z.
Proof.
  intros [Hlow Hhigh]. destruct (Math_round_spec v) as [H1 H2].
  split.
  - assert (H : (low - 1 < Math_round v)%Z)
      by (apply lt_IZR; rewrite minus_IZR; lra).
    lia.
  - assert (H : (Math_round v < high + 1)%Z)
      by (apply lt_IZR; rewrite plus_IZR; lra).
    lia.
Qed.

(** X16. Whatever the pivot, the red point and the pointer are, the
    percentage of the steering message is between 0 and 50. *)
Theorem steering_percentage_range (middle red mouse : Point) :
  (0 <= magnitudePercent (steer (computeRotation middle red mouse)) <= 50)%Z.
Proof.
  assert (Hr : -180 < computeRotation middle red mouse <= 180)
    by (apply toRotation_bounds; apply atan2_range).
  set (rotation := computeRotation middle red mouse) in *.
  assert (Habs : 0 <= Rabs rotation <= 180).
  { split; [apply Rabs_pos|]. unfold Rabs. destruct (Rcase_abs _); lra. }
  destruct (Rlt_dec (Rabs rotation) 90) as [H|H].
  - rewrite (steer_simple _ H). cbn [magnitudePercent].
    apply Math_round_bounds. lra.
  - rewrite (steer_combined _ H). cbn [magnitudePercent].
    apply Math_round_bounds. lra.
Qed.

(** ** Tolerance at start-up *)


(** ** Detection and the frame *)

Lemma clusterColor_no_match (imageData : ImageData)
    (testFunc : Z -> Z -> Z -> bool) :
  (forall px py, testPixel imageData testFunc px py = false) ->
  clusterColor imageData testFunc = None.
Proof.
  intros Hno. rewrite clusterColor_of_clusters.
  destruct (matchedPixels imageData testFunc) as [|[px py] rest] eqn:E;
    [reflexivity|].
  assert (Hin : In (px, py) (matchedPixels imageData testFunc))
    by (rewrite E; left; reflexivity).
  apply matchedPixels_spec in Hin. destruct Hin as (_ & _ & Hin).
  rewrite Hno in Hin. discriminate.
Qed.

(** X18. [detectDots] makes one new point for every colour that was found
    and none for the others: a dot of the marker set is missing exactly when
    [clusterColor] found no cluster of its colour, a dot that is present
    holds the point that [clusterColor] returned, and the dots that are
    present are different objects. *)
Theorem detectDots_fresh_points (imageData : ImageData) :
  (red (fst (detectDots imageData [])) = None
   <-> clusterColor imageData isRed = None)
  /\ (pink (fst (detectDots imageData [])) = None
      <-> clusterColor imageData isPink = None)
  /\ (green (fst (detectDots imageData [])) = None
      <-> clusterColor imageData isGreen = None)
  /\ (forall l, red (fst (detectDots imageData [])) = Some l ->
        clusterColor imageData isRed
        = Some (load (snd (detectDots imageData [])) l))
  /\ (forall l, pink (fst (detectDots imageData [])) = Some l ->
        clusterColor imageData isPink
        = Some (load (snd (detectDots imageData [])) l))
  /\ (forall l, green (fst (detectDots imageData [])) = Some l ->
        clusterColor imageData isGreen
        = Some (load (snd (detectDots imageData [])) l))
  /\ (forall r p g,
        red (fst (detectDots imageData [])) = Some r ->
        pink (fst (detectDots imageData [])) = Some p ->
        green (fst (detectDots imageData [])) = Some g ->
        r <> p /\ r <> g /\ p <> g).
Proof.
  unfold detectDots.
  destruct (clusterColor imageData isRed) as [pr|],
           (clusterColor imageData isPink) as [pp|],
           (clusterColor imageData isGreen) as [pg|]; simpl;
    repeat split; intros; try discriminate; try reflexivity;
    repeat match goal with
           | H : Some _ = Some _ |- _ => inversion H; subst; clear H
           end;
    try reflexivity; try discriminate; try lia.
Qed.

(** X19. A frame in which no pixel passes the test of one of the three
    colours reports that not all dots were detected, evaluates no geometry
    check and shows no angle. *)
Theorem processFrame_missing_colour (imageData : ImageData)
    (mousePos : Point) (inputValue : string) :
  (forall px py, testPixel imageData isRed px py = false)
  \/ (forall px py, testPixel imageData isPink px py = false)
  \/ (forall px py, testPixel imageData isGreen px py = false) ->
  coordsText (processFrame imageData mousePos inputValue)
  = "Not all dots detected."%string
  /\ angleText (processFrame imageData mousePos inputValue) = ""%string
  /\ checksRun (processFrame imageData mousePos inputValue) = [].
Proof.
  intros H. unfold processFrame, detectDots.
  destruct H as [H|[H|H]]; apply clusterColor_no_match in H; rewrite H;
    repeat match goal with
           | |- context [clusterColor imageData ?t] =>
               destruct (clusterColor imageData t)
           end;
    simpl; repeat split; reflexivity.
Qed.

Lemma onePixel_no_green (px py : Z) : testPixel onePixel isGreen px py = false.
Proof.
  unfold testPixel, sample, onePixel. cbn [width data].
  destruct ((py * 1 + px) * 4 <? 0)%Z eqn:E0; [reflexivity|].
  apply Z.ltb_ge in E0.
  destruct (Z.eq_dec ((py * 1 + px) * 4) 0) as [->|Hne]; [reflexivity|].
  assert (H4 : (4 <= (py * 1 + px) * 4)%Z) by lia.
  assert (Hout : nth_error [200; 0; 90; 255]%Z
                   (Z.to_nat ((py * 1 + px) * 4 + 2)) = None)
    by (apply nth_error_None; simpl; lia).
  destruct ((py * 1 + px) * 4 + 1 <? 0)%Z, ((py * 1 + px) * 4 + 2 <? 0)%Z;
    rewrite ?Hout;
    destruct (nth_error _ (Z.to_nat ((py * 1 + px) * 4)));
    try reflexivity;
    destruct (nth_error _ (Z.to_nat ((py * 1 + px) * 4 + 1)));
    reflexivity.
Qed.

Lemma processFrame_missing_colour_witness :
  (forall px py, testPixel onePixel isGreen px py = false)
  /\ coordsText (processFrame onePixel (pt 0 0) "0.8")
     = "Not all dots detected."%string
  /\ angleText (processFrame onePixel (pt 0 0) "0.8") = ""%string
  /\ checksRun (processFrame onePixel (pt 0 0) "0.8") = [].
Proof.
  split; [exact onePixel_no_green|].
  exact (processFrame_missing_colour onePixel (pt 0 0) "0.8"
           (or_intror (or_intror onePixel_no_green))).
Defined.

(** X20. A frame changes no point other than the pink one, and none at
    all when the geometry is rejected; the number of points stays the
    same. *)
Theorem frame_changes_only_pink (dots : Dots) (heap : Heap)
    (mousePos : Point) (inputValue : string) (l : Loc) :
  pink dots <> Some l ->
  load (heapAfter (processDots dots heap mousePos inputValue)) l = load heap l
  /\ List.length (heapAfter (processDots dots heap mousePos inputValue))
     = List.length heap
  /\ (coordsText (processDots dots heap mousePos inputValue)
      = "Detected points are not collinear or in the correct order."%string ->
      heapAfter (processDots dots heap mousePos inputValue) = heap).
Proof.
  intros Hl. unfold processDots.
  destruct dots as [[r|] [p|] [g|]]; cbn [red pink green] in *;
    try (repeat split; reflexivity).
  destruct (processDots_present
              {| red := Some r; pink := Some p; green := Some g |}
              heap mousePos inputValue r p g eq_refl eq_refl eq_refl)
    as [_ Hheap].
  assert (Hmsg := processDots_messages
              {| red := Some r; pink := Some p; green := Some g |}
              heap mousePos inputValue r p g eq_refl eq_refl eq_refl).
  unfold processDots in Hheap, Hmsg. cbn [red pink green] in Hheap, Hmsg.
  rewrite Hheap, Hmsg.
  destruct (fst (geometryChecks _ _ _ _)); [|repeat split; reflexivity].
  assert (Hne : l <> p) by (intros ->; apply Hl; reflexivity).
  unfold computePivot, setX, setY. cbn [fst snd].
  split.
  { rewrite (load_update_other _ p l _ Hne).
    rewrite (load_update_other _ p l _ Hne). reflexivity. }
  split; [rewrite !length_update; reflexivity|].
  intros Htext. exfalso.
  destruct (steer _) as [[|] d m]; unfold steeringText in Htext;
    cbn [mode] in Htext; discriminate.
Qed.

Lemma frame_changes_only_pink_witness :
  pink straightDots <> Some 0%nat
  /\ load (heapAfter (processDots straightDots straightHeap (pt 0 0) "0.8"))
       0%nat
     = load straightHeap 0%nat.
Proof.
  assert (H : pink straightDots <> Some 0%nat) by (simpl; discriminate).
  split; [exact H|].
  exact (proj1 (frame_changes_only_pink straightDots straightHeap (pt 0 0)
                  "0.8" 0%nat H)).
Defined.


Lemma threeDots_found :
  clusterColor threeDots isRed = Some (pt 0 0)
  /\ clusterColor threeDots isPink = Some (pt 50 0)
  /\ clusterColor threeDots isGreen = Some (pt 100 0).
Proof.
  repeat split; vm_compute; f_equal; f_equal; lra.
Qed.


(** A whole frame: the dots at (0,0), (50,0), (100,0) and the pointer
    straight beside the pivot (25,0). *)
Example processFrame_threeDots :
  coordsText (processFrame threeDots (pt 25 10) "0.8")
  = "The boat have to turn left and then rotate left with factor 0%"%string.
Proof.
  destruct threeDots_found as (Hr & Hp & Hg).
  unfold processFrame, detectDots.
  rewrite Hr, Hp, Hg. cbn [allocate List.length app].
  rewrite (processDots_messages
             {| red := Some 0%nat; pink := Some 1%nat; green := Some 2%nat |}
             [pt 0 0; pt 50 0; pt 100 0] (pt 25 10) "0.8" 0%nat 1%nat 2%nat
             eq_refl eq_refl eq_refl).
  change (load [pt 0 0; pt 50 0; pt 100 0] 0%nat) with (pt 0 0).
  change (load [pt 0 0; pt 50 0; pt 100 0] 1%nat) with (pt 50 0).
  change (load [pt 0 0; pt 50 0; pt 100 0] 2%nat) with (pt 100 0).
  rewrite straight_accepted. cbn [fst].
  unfold computePivot, setX, setY, load, pt. cbn [update nth snd x y].
  assert (Hrot : computeRotation
                   {| x := 50 + (0 - 50) / 2; y := 0 + (0 - 0) / 2 |}
                   {| x := 0; y := 0 |} {| x := 25; y := 10 |} = -90).
  { assert (HPI := PI_RGT_0). destruct degrees_per_radian as [Hk Hk'].
    unfold computeRotation. cbn [x y].
    replace (0 - (0 + (0 - 0) / 2)) with 0 by lra.
    replace (0 - (50 + (0 - 50) / 2)) with (- (25)) by lra.
    replace (10 - (0 + (0 - 0) / 2)) with 10 by lra.
    replace (25 - (50 + (0 - 50) / 2)) with 0 by lra.
    destruct (atan2_axes 25 ltac:(lra)) as (_ & _ & -> & _).
    destruct (atan2_axes 10 ltac:(lra)) as (_ & -> & _ & _).
    rewrite toRotation_in_range; lra. }
  rewrite Hrot.
  rewrite steer_combined by (rewrite Rabs_left; lra).
  unfold Rgtb. rewrite (proj2 (Rltb_false_iff 0 (-90))) by lra.
  rewrite (Math_round_eq _ 0) by (rewrite Rabs_left; lra).
  reflexivity.
Qed.

(** ** Pointer position *)



(** ** Reading the pixels *)

(** X23. In an image whose data holds four bytes for every pixel, the scan
    reads inside the data only: at every pixel it visits, the three channels
    are defined and the test is applied to them. *)
Theorem scan_reads_inside_data (imageData : ImageData)
    (testFunc : Z -> Z -> Z -> bool) (px py : Z) :
  Z.of_nat (List.length (data imageData))
  = (4 * width imageData * height imageData)%Z ->
  In px (stride2 (width imageData)) -> In py (stride2 (height imageData)) ->
  exists r g b,
    sample imageData ((py * width imageData + px) * 4) = Some r
    /\ sample imageData ((py * width imageData + px) * 4 + 1) = Some g
    /\ sample imageData ((py * width imageData + px) * 4 + 2) = Some b
    /\ testPixel imageData testFunc px py = testFunc r g b.
Proof.
  intros Hlen Hx Hy. apply stride2_spec in Hx, Hy.
  destruct Hx as [Hx _], Hy as [Hy _].
  set (index := ((py * width imageData + px) * 4)%Z).
  assert (Hindex : (0 <= index /\ index + 3
                    < Z.of_nat (List.length (data imageData)))%Z).
  { unfold index. rewrite Hlen. nia. }
  assert (Hread : forall i, (index <= i <= index + 2)%Z ->
                    exists v, sample imageData i = Some v).
  { intros i Hi. unfold sample.
    destruct (i <? 0)%Z eqn:E; [apply Z.ltb_lt in E; lia|].
    destruct (nth_error (data imageData) (Z.to_nat i)) as [v|] eqn:En;
      [exists v; reflexivity|].
    apply nth_error_None in En. lia. }
  destruct (Hread index ltac:(lia)) as [r Hr].
  destruct (Hread (index + 1)%Z ltac:(lia)) as [g Hg].
  destruct (Hread (index + 2)%Z ltac:(lia)) as [b Hb].
  exists r, g, b. unfold testPixel. fold index. rewrite Hr, Hg, Hb.
  repeat split; reflexivity.
Qed.

Lemma scan_reads_inside_data_witness :
  Z.of_nat (List.length (data onePixel))
  = (4 * width onePixel * height onePixel)%Z
  /\ In 0%Z (stride2 (width onePixel)) /\ In 0%Z (stride2 (height onePixel))
  /\ exists r g b,
       sample onePixel ((0 * width onePixel + 0) * 4) = Some r
       /\ sample onePixel ((0 * width onePixel + 0) * 4 + 1) = Some g
       /\ sample onePixel ((0 * width onePixel + 0) * 4 + 2) = Some b
       /\ testPixel onePixel isRed 0 0 = isRed r g b.
Proof.
  assert (H1 : Z.of_nat (List.length (data onePixel))
               = (4 * width onePixel * height onePixel)%Z) by reflexivity.
  assert (H2 : In 0%Z (stride2 (width onePixel))) by (left; reflexivity).
  assert (H3 : In 0%Z (stride2 (height onePixel))) by (left; reflexivity).
  split; [exact H1|]. split; [exact H2|]. split; [exact H3|].
  exact (scan_reads_inside_data onePixel isRed 0 0 H1 H2 H3).
Defined.

(** ** Symmetries *)

(** X24. A rotation and its opposite give the same sentence and the same
    percentage, and opposite words unless the rotation is 0, which counts
    as left. *)
Theorem steer_opposite (rotation : R) :
  mode (steer (- rotation)) = mode (steer rotation)
  /\ magnitudePercent (steer (- rotation)) = magnitudePercent (steer rotation)
  /\ (rotation > 0 ->
      direction (steer rotation) = Right
      /\ direction (steer (- rotation)) = Left)
  /\ direction (steer 0) = Left.
Proof.
  unfold steer. rewrite Rabs_Ropp.
  split; [destruct (Rltb (Rabs rotation) 90); reflexivity|].
  split; [destruct (Rltb (Rabs rotation) 90); reflexivity|].
  split.
  - intros Hpos. unfold Rgtb.
    rewrite (proj2 (Rltb_true_iff 0 rotation)) by lra.
    rewrite (proj2 (Rltb_false_iff 0 (- rotation))) by lra.
    destruct (Rltb (Rabs rotation) 90); split; reflexivity.
  - unfold Rgtb. rewrite (proj2 (Rltb_false_iff 0 0)) by lra.
    destruct (Rltb (Rabs 0) 90); reflexivity.
Qed.

Lemma steer_opposite_witness :
  45 > 0 /\ direction (steer 45) = Right /\ direction (steer (- 45)) = Left.
Proof.
  assert (H : 45 > 0) by lra.
  split; [exact H|].
  exact (proj1 (proj2 (proj2 (steer_opposite 45))) H).
Defined.




